(** * pgtime: calendar arithmetic on [struct tm] records

    A shallow embedding of [pgtime.c] and the properties of its
    validator, comparator, incrementers/decrementers, calibrator and
    UTC reconciler.

    Conventions of the embedding.
    - A C [int] and a [time_t] are modelled by [Z].  C leaves signed
      overflow undefined, so the model describes the executions in which
      no arithmetic operation leaves the range of its type; statements
      about an operation that can leave it carry the range as a
      hypothesis ([int_range], [negatable]).  C's [/] and [%] truncate
      toward zero: they are [Z.quot] and [Z.rem].
    - [struct tm] is a record of the seven fields the library reads or
      writes; [tm_wday] and [tm_yday] are never touched by it.
    - A function that mutates the record behind its pointer argument and
      returns the pointer is a function from the old record to the new.
    - [assert(false)] (assertions compiled in) and [exit(EXIT_FAILURE)]
      end the process: functions that can reach them return [option],
      [None] being the abort.
    - The platform primitives [mktime] and [gmtime] are parameters. *)

From Stdlib Require Import ZArith Bool List Lia.
Import ListNotations.
Local Open Scope Z_scope.

(** ** Data model *)

Record tm : Type := mk_tm {
  tm_sec   : Z;
  tm_min   : Z;
  tm_hour  : Z;
  tm_mday  : Z;
  tm_mon   : Z;
  tm_year  : Z;
  tm_isdst : Z
}.

Definition time_t : Type := Z.

(** The range of [int] (32 bits), and the quantities whose negation is
    an [int] again: every [int] but [INT_MIN]. *)
Definition INT_MIN : Z := -2147483648.
Definition INT_MAX : Z := 2147483647.

Definition int_range (z : Z) : Prop := INT_MIN <= z <= INT_MAX.

Definition negatable (q : Z) : Prop := INT_MIN < q <= INT_MAX.

(** A record written in reading order: year field, month index, day,
    then hour, minute, second; the DST flag is 0. *)
Definition civil (year mon mday hour min sec : Z) : tm :=
  mk_tm sec min hour mday mon year 0.

Definition set_sec (t : tm) (v : Z) : tm :=
  mk_tm v (tm_min t) (tm_hour t) (tm_mday t) (tm_mon t) (tm_year t) (tm_isdst t).
Definition set_min (t : tm) (v : Z) : tm :=
  mk_tm (tm_sec t) v (tm_hour t) (tm_mday t) (tm_mon t) (tm_year t) (tm_isdst t).
Definition set_hour (t : tm) (v : Z) : tm :=
  mk_tm (tm_sec t) (tm_min t) v (tm_mday t) (tm_mon t) (tm_year t) (tm_isdst t).
Definition set_mday (t : tm) (v : Z) : tm :=
  mk_tm (tm_sec t) (tm_min t) (tm_hour t) v (tm_mon t) (tm_year t) (tm_isdst t).
Definition set_mon (t : tm) (v : Z) : tm :=
  mk_tm (tm_sec t) (tm_min t) (tm_hour t) (tm_mday t) v (tm_year t) (tm_isdst t).
Definition set_year (t : tm) (v : Z) : tm :=
  mk_tm (tm_sec t) (tm_min t) (tm_hour t) (tm_mday t) (tm_mon t) v (tm_isdst t).

(** The error monad of aborting functions. *)

Definition bind {A B : Type} (c : option A) (k : A -> option B) : option B :=
  match c with
  | Some a => k a
  | None => None
  end.

Declare Scope abort_scope.
Notation "x <- c ;; k" := (bind c (fun x => k))
  (at level 61, c at next level, right associativity) : abort_scope.
Local Open Scope abort_scope.

(** ** Leap years *)

Definition is_leap_year (year : Z) : bool :=
  (Z.rem year 4 =? 0) &&
  (negb (Z.rem year 100 =? 0) || (Z.rem year 400 =? 0)).

(** ** Validation *)

Definition days_in_month : list Z :=
  [31; 28; 31; 30; 31; 30; 31; 31; 30; 31; 30; 31].

(** [days_in_month[i]]; the validator only indexes after its month test
    has passed, [||] being evaluated left to right. *)
Definition days_in_month_at (i : Z) : Z := nth (Z.to_nat i) days_in_month 0.

(** [tm_year + 1900] is an [int] addition in the source; the model has
    its mathematical value, which is the source's while
    [int_range (tm_year + 1900)].  Beyond that the source's addition
    overflows. *)
Definition validate_date (check_tm : tm) : bool :=
  if (tm_year check_tm =? -1900)
     || ((tm_mon check_tm <? 0) || (tm_mon check_tm >? 11))
     || (tm_mday check_tm <? 1)
     || ((tm_mday check_tm >? days_in_month_at (tm_mon check_tm))
         && negb ((tm_mon check_tm =? 1)
                  && (tm_mday check_tm =? 29)
                  && is_leap_year (tm_year check_tm + 1900)))
     || ((tm_hour check_tm <? 0) || (tm_hour check_tm >? 23))
     || ((tm_min check_tm <? 0) || (tm_min check_tm >? 59))
     || ((tm_sec check_tm <? 0) || (tm_sec check_tm >? 59))
  then false
  else true.

(** ** Comparison *)

Definition tm_compare (first second : tm) : Z :=
  if negb (tm_year first =? tm_year second) then
    if tm_year first >? tm_year second then 1 else -1
  else if negb (tm_mon first =? tm_mon second) then
    if tm_mon first >? tm_mon second then 1 else -1
  else if negb (tm_mday first =? tm_mday second) then
    if tm_mday first >? tm_mday second then 1 else -1
  else if negb (tm_hour first =? tm_hour second) then
    if tm_hour first >? tm_hour second then 1 else -1
  else if negb (tm_min first =? tm_min second) then
    if tm_min first >? tm_min second then 1 else -1
  else if negb (tm_sec first =? tm_sec second) then
    if tm_sec first >? tm_sec second then 1 else -1
  else 0.

Definition secs_in_day : Z := 86400.
Definition secs_in_hour : Z := 3600.
Definition secs_in_min : Z := 60.
Definition mins_in_hour : Z := 60.
Definition hours_in_day : Z := 24.

Definition tm_intraday_secs_diff (first second : tm) : Z :=
  let time_comp := tm_compare first second in
  if time_comp =? 0 then 0
  else
    let difference := (tm_hour second - tm_hour first) * secs_in_hour in
    let difference := difference + (tm_min second - tm_min first) * secs_in_min in
    let difference := difference + (tm_sec second - tm_sec first) in
    if (time_comp =? 1) && (difference >? 0) then difference - secs_in_day
    else if (time_comp =? -1) && (difference <? 0) then difference + secs_in_day
    else difference.

(** ** Walking days *)

Inductive months : Type :=
  | january | february | march | april | may | june
  | july | august | september | october | november | december.

(** The [switch] on [tm_mon]: [None] is the [default] label. *)
Definition month_case (m : Z) : option months :=
  if m =? 0 then Some january
  else if m =? 1 then Some february
  else if m =? 2 then Some march
  else if m =? 3 then Some april
  else if m =? 4 then Some may
  else if m =? 5 then Some june
  else if m =? 6 then Some july
  else if m =? 7 then Some august
  else if m =? 8 then Some september
  else if m =? 9 then Some october
  else if m =? 10 then Some november
  else if m =? 11 then Some december
  else None.

(** One turn of the [while] loop of [tm_increment_day]. *)
Definition increment_day_step (t0 : tm) : option tm :=
  let t := set_mday t0 (tm_mday t0 + 1) in
  match month_case (tm_mon t) with
  | Some january | Some march | Some may | Some july
  | Some august | Some october =>
      if tm_mday t >? 31
      then Some (set_mon (set_mday t 1) (tm_mon t + 1))
      else Some t
  | Some december =>
      if tm_mday t >? 31
      then
        let t := set_mon (set_mday t 1) 0 in
        if tm_year t =? -1
        then Some (set_year t 1)
        else Some (set_year t (tm_year t + 1))
      else Some t
  | Some april | Some june | Some september | Some november =>
      if tm_mday t >? 30
      then Some (set_mon (set_mday t 1) (tm_mon t + 1))
      else Some t
  | Some february =>
      if tm_mday t >? 29
      then Some (set_mon (set_mday t 1) (tm_mon t + 1))
      else if (tm_mday t >? 28) && negb (is_leap_year (tm_year t))
      then Some (set_mon (set_mday t 1) (tm_mon t + 1))
      else Some t
  | None => None
  end.

(** One turn of the [while] loop of [tm_decrement_day]. *)
Definition decrement_day_step (t : tm) : option tm :=
  if tm_mday t >? 1 then Some (set_mday t (tm_mday t - 1))
  else
    match month_case (tm_mon t) with
    | Some january =>
        let t := set_mon (set_mday t 31) 11 in
        if tm_year t =? 1
        then Some (set_year t (-1))
        else Some (set_year t (tm_year t - 1))
    | Some february | Some april | Some june | Some august
    | Some september | Some november =>
        Some (set_mon (set_mday t 31) (tm_mon t - 1))
    | Some may | Some july | Some october | Some december =>
        Some (set_mon (set_mday t 30) (tm_mon t - 1))
    | Some march =>
        let t := if is_leap_year (tm_year t)
                 then set_mday t 29
                 else set_mday t 28 in
        Some (set_mon t (tm_mon t - 1))
    | None => None
    end.

(** [while ( num_days-- ) body], entered with [num_days >= 0]. *)
Fixpoint while_countdown (body : tm -> option tm) (num_days : nat) (t : tm)
  : option tm :=
  match num_days with
  | O => Some t
  | S k => t' <- body t ;; while_countdown body k t'
  end.

Definition increment_day_loop (t : tm) (num_days : Z) : option tm :=
  while_countdown increment_day_step (Z.to_nat num_days) t.

Definition decrement_day_loop (t : tm) (num_days : Z) : option tm :=
  while_countdown decrement_day_step (Z.to_nat num_days) t.

(** The two functions call each other on a negative quantity, with
    [-quantity]; the callee then receives a positive one and runs its
    loop.  This is the source for every [negatable] quantity; at
    [INT_MIN] the source's negation overflows and the pair would call
    each other again. *)
Definition tm_increment_day (changing_tm : tm) (quantity : Z) : option tm :=
  if quantity <? 0
  then decrement_day_loop changing_tm (- quantity)
  else increment_day_loop changing_tm quantity.

Definition tm_decrement_day (changing_tm : tm) (quantity : Z) : option tm :=
  if quantity <? 0
  then increment_day_loop changing_tm (- quantity)
  else decrement_day_loop changing_tm quantity.

(** ** Hours

    As for days, a negative quantity goes to the opposite function with
    [-quantity], whose own sign test then fails: the model runs the
    opposite function's [else] branch.  This is the source for every
    [negatable] quantity.  The same holds for minutes and seconds. *)

Definition increment_hour_else (t : tm) (quantity : Z) : option tm :=
  let num_hours := quantity in
  if (num_hours >=? hours_in_day) || (num_hours >=? hours_in_day - tm_hour t)
  then
    let num_days := Z.quot quantity hours_in_day in
    let num_hours := num_hours - num_days * hours_in_day in
    if num_hours >=? hours_in_day - tm_hour t
    then
      let num_days := num_days + 1 in
      let num_hours := num_hours - (hours_in_day - tm_hour t) in
      let t := set_hour t num_hours in
      t <- tm_increment_day t num_days ;;
      Some (set_hour t (tm_hour t + num_hours))
    else
      t <- tm_increment_day t num_days ;;
      Some (set_hour t (tm_hour t + num_hours))
  else Some (set_hour t (tm_hour t + num_hours)).

Definition decrement_hour_else (t : tm) (quantity : Z) : option tm :=
  let num_hours := quantity in
  if (num_hours >=? hours_in_day) || (num_hours >? tm_hour t)
  then
    let num_days := Z.quot quantity hours_in_day in
    let num_hours := num_hours - num_days * hours_in_day in
    if num_hours >? tm_hour t
    then
      let num_days := num_days + 1 in
      let num_hours := num_hours - tm_hour t in
      let t := set_hour t hours_in_day in
      t <- tm_decrement_day t num_days ;;
      Some (set_hour t (tm_hour t - num_hours))
    else
      t <- tm_decrement_day t num_days ;;
      Some (set_hour t (tm_hour t - num_hours))
  else Some (set_hour t (tm_hour t - num_hours)).

Definition tm_increment_hour (changing_tm : tm) (quantity : Z) : option tm :=
  if quantity <? 0
  then decrement_hour_else changing_tm (- quantity)
  else increment_hour_else changing_tm quantity.

Definition tm_decrement_hour (changing_tm : tm) (quantity : Z) : option tm :=
  if quantity <? 0
  then increment_hour_else changing_tm (- quantity)
  else decrement_hour_else changing_tm quantity.

(** ** Minutes *)

Definition increment_minute_else (t : tm) (quantity : Z) : option tm :=
  let num_mins := quantity in
  if (num_mins >=? mins_in_hour) || (num_mins >=? mins_in_hour - tm_min t)
  then
    let num_hours := Z.quot quantity mins_in_hour in
    let num_mins := num_mins - num_hours * mins_in_hour in
    if num_mins >=? mins_in_hour - tm_min t
    then
      let num_hours := num_hours + 1 in
      let t := set_min t (tm_min t + (num_mins - mins_in_hour)) in
      let num_mins := 0 in
      t <- tm_increment_hour t num_hours ;;
      Some (set_min t (tm_min t + num_mins))
    else
      t <- tm_increment_hour t num_hours ;;
      Some (set_min t (tm_min t + num_mins))
  else Some (set_min t (tm_min t + num_mins)).

Definition decrement_minute_else (t : tm) (quantity : Z) : option tm :=
  let num_mins := quantity in
  if (num_mins >=? mins_in_hour) || (num_mins >? tm_min t)
  then
    let num_hours := Z.quot quantity mins_in_hour in
    let num_mins := num_mins - num_hours * mins_in_hour in
    if num_mins >? tm_min t
    then
      let num_hours := num_hours + 1 in
      let num_mins := num_mins - tm_min t in
      let t := set_min t mins_in_hour in
      t <- tm_decrement_hour t num_hours ;;
      Some (set_min t (tm_min t - num_mins))
    else
      t <- tm_decrement_hour t num_hours ;;
      Some (set_min t (tm_min t - num_mins))
  else Some (set_min t (tm_min t - num_mins)).

Definition tm_increment_minute (changing_tm : tm) (quantity : Z) : option tm :=
  if quantity <? 0
  then decrement_minute_else changing_tm (- quantity)
  else increment_minute_else changing_tm quantity.

Definition tm_decrement_minute (changing_tm : tm) (quantity : Z) : option tm :=
  if quantity <? 0
  then increment_minute_else changing_tm (- quantity)
  else decrement_minute_else changing_tm quantity.

(** ** Seconds *)

Definition increment_second_else (t : tm) (quantity : Z) : option tm :=
  let num_secs := quantity in
  if (num_secs >=? secs_in_min) || (num_secs >=? secs_in_min - tm_sec t)
  then
    let num_mins := Z.quot quantity secs_in_min in
    let num_secs := num_secs - num_mins * secs_in_min in
    if num_secs >=? secs_in_min - tm_sec t
    then
      let num_mins := num_mins + 1 in
      let t := set_sec t (tm_sec t + (num_secs - secs_in_min)) in
      let num_secs := 0 in
      t <- tm_increment_minute t num_mins ;;
      Some (set_sec t (tm_sec t + num_secs))
    else
      t <- tm_increment_minute t num_mins ;;
      Some (set_sec t (tm_sec t + num_secs))
  else Some (set_sec t (tm_sec t + num_secs)).

Definition decrement_second_else (t : tm) (quantity : Z) : option tm :=
  let num_secs := quantity in
  if (num_secs >=? secs_in_min) || (num_secs >? tm_sec t)
  then
    let num_mins := Z.quot quantity secs_in_min in
    let num_secs := num_secs - num_mins * secs_in_min in
    if num_secs >? tm_sec t
    then
      let num_mins := num_mins + 1 in
      let num_secs := num_secs - tm_sec t in
      let t := set_sec t secs_in_min in
      t <- tm_decrement_minute t num_mins ;;
      Some (set_sec t (tm_sec t - num_secs))
    else
      t <- tm_decrement_minute t num_mins ;;
      Some (set_sec t (tm_sec t - num_secs))
  else Some (set_sec t (tm_sec t - num_secs)).

Definition tm_increment_second (changing_tm : tm) (quantity : Z) : option tm :=
  if quantity <? 0
  then decrement_second_else changing_tm (- quantity)
  else increment_second_else changing_tm quantity.

Definition tm_decrement_second (changing_tm : tm) (quantity : Z) : option tm :=
  if quantity <? 0
  then increment_second_else changing_tm (- quantity)
  else decrement_second_else changing_tm quantity.

(** ** The platform: calibration and reconciliation *)

Section Platform.

(** [mktime] returns the timestamp, [-1] when the time cannot be
    represented, and the record as it leaves it behind its pointer
    (normalised).  [gmtime] returns [None] for a null pointer. *)
Variable mktime : tm -> time_t * tm.
Variable gmtime : time_t -> option tm.

(** January 2, 1930, 12:00:00, DST unknown. *)
Definition datum : tm := mk_tm 0 0 12 2 0 30 (-1).

Definition get_day_diff : option time_t :=
  let '(datum_time, datum_day) := mktime datum in
  if datum_time =? -1 then None
  else
    let datum_day := set_mday datum_day (tm_mday datum_day + 1) in
    let '(tomorrow_time, _) := mktime datum_day in
    if tomorrow_time =? -1 then None
    else Some (tomorrow_time - datum_time).

Definition get_hour_diff : option time_t :=
  let '(datum_time, datum_day) := mktime datum in
  if datum_time =? -1 then None
  else
    let datum_day := set_hour datum_day (tm_hour datum_day + 1) in
    let '(nexthour_time, _) := mktime datum_day in
    if nexthour_time =? -1 then None
    else Some (nexthour_time - datum_time).

Definition get_sec_diff : option time_t :=
  let '(datum_time, datum_day) := mktime datum in
  if datum_time =? -1 then None
  else
    let datum_day := set_sec datum_day (tm_sec datum_day + 1) in
    let '(nextsec_time, _) := mktime datum_day in
    if nextsec_time =? -1 then None
    else Some (nextsec_time - datum_time).

(** The result pairs the returned flag with the value stored through
    [secs_diff]. *)
Definition check_utc_timestamp (check_time : time_t) (check_tm : tm)
  : option (bool * Z) :=
  compare_tm <- gmtime check_time ;;
  let agrees := if negb (tm_compare check_tm compare_tm =? 0)
                then false else true in
  if agrees then Some (agrees, 0)
  else Some (agrees, tm_intraday_secs_diff check_tm compare_tm).

Definition get_utc_timestamp_sec_diff (check_time : time_t) (utc_tm : tm)
  : option Z :=
  check_tm <- gmtime check_time ;;
  Some (tm_intraday_secs_diff utc_tm check_tm).

Definition get_utc_timestamp (utc_tm : tm) : option time_t :=
  let '(utc_ts, copy_tm) := mktime utc_tm in
  if utc_ts =? -1 then None
  else
    secs_diff <- get_utc_timestamp_sec_diff utc_ts copy_tm ;;
    if negb (secs_diff =? 0) then
      one_sec <- get_sec_diff ;;
      let utc_ts := utc_ts - one_sec * secs_diff in
      secs_diff <- get_utc_timestamp_sec_diff utc_ts copy_tm ;;
      if negb (secs_diff =? 0) then
        plus <- get_utc_timestamp_sec_diff (utc_ts + one_sec) copy_tm ;;
        if plus =? 0 then Some (utc_ts + one_sec)
        else
          minus <- get_utc_timestamp_sec_diff (utc_ts - one_sec) copy_tm ;;
          if minus =? 0 then Some (utc_ts - one_sec)
          else None
      else Some utc_ts
    else Some utc_ts.

End Platform.

(** ** Specification-side notions *)

(** Length of a month as the specification words it: a table indexed by
    month, with the leap-year exception for February. *)
Definition spec_days_in_month (month : Z) (leap : bool) : Z :=
  match month with
  | 0 | 2 | 4 | 6 | 7 | 9 | 11 => 31
  | 3 | 5 | 8 | 10 => 30
  | 1 => if leap then 29 else 28
  | _ => 0
  end.

(** The invariants the validator is documented to enforce. *)
Definition valid_civil (r : tm) : Prop :=
  tm_year r <> -1900 /\
  0 <= tm_mon r <= 11 /\
  1 <= tm_mday r <= spec_days_in_month (tm_mon r) (is_leap_year (tm_year r + 1900)) /\
  0 <= tm_hour r <= 23 /\
  0 <= tm_min r <= 59 /\
  0 <= tm_sec r <= 59.

(** The comparator's three answers, and the lexicographic order on
    (year, month, day, hour, minute, second). *)
Inductive ordering : Type := LESS | EQUAL | GREATER.

Definition ordering_of (c : comparison) : ordering :=
  match c with
  | Lt => LESS
  | Eq => EQUAL
  | Gt => GREATER
  end.

Fixpoint lex_compare (xs ys : list Z) : comparison :=
  match xs, ys with
  | x :: xs', y :: ys' =>
      match x ?= y with
      | Eq => lex_compare xs' ys'
      | c => c
      end
  | _, _ => Eq
  end.

Definition civil_fields (r : tm) : list Z :=
  [tm_year r; tm_mon r; tm_mday r; tm_hour r; tm_min r; tm_sec r].

Definition civil_order (a b : tm) : ordering :=
  ordering_of (lex_compare (civil_fields a) (civil_fields b)).

Definition ordering_code (o : ordering) : Z :=
  match o with
  | LESS => -1
  | EQUAL => 0
  | GREATER => 1
  end.

Definition raw_secs_diff (a b : tm) : Z :=
  (tm_hour b - tm_hour a) * 3600 + (tm_min b - tm_min a) * 60
  + (tm_sec b - tm_sec a).

(** Fields outside the reach of the day walkers. *)
Definition same_clock (a b : tm) : Prop :=
  tm_hour a = tm_hour b /\ tm_min a = tm_min b /\
  tm_sec a = tm_sec b /\ tm_isdst a = tm_isdst b.

Definition clock_of (t : tm) : Z * Z * Z * Z :=
  (tm_hour t, tm_min t, tm_sec t, tm_isdst t).

Definition month_in_range (t : tm) : Prop := 0 <= tm_mon t <= 11.

(** The calendar the day walkers move in: month lengths as their
    switches have them, February decided by the oracle on the year field
    itself, and no year field 0. *)
Definition walker_month_length (t : tm) : Z :=
  match month_case (tm_mon t) with
  | Some february => if is_leap_year (tm_year t) then 29 else 28
  | Some april | Some june | Some september | Some november => 30
  | Some _ => 31
  | None => 0
  end.

Definition walker_valid (t : tm) : Prop :=
  1 <= tm_mday t <= walker_month_length t /\ tm_year t <> 0.

(** [g] is a change of the record that a mutator [f] neither reads nor
    overwrites: doing it before [f] or after gives the same record. *)
Definition commutes (f : tm -> option tm) (g : tm -> tm) : Prop :=
  forall t, f (g t) = option_map g (f t).

(** The setters of the clock fields below the day. *)
Inductive clock_setter : (tm -> tm) -> Prop :=
| setter_hour v : clock_setter (fun t => set_hour t v)
| setter_min v : clock_setter (fun t => set_min t v)
| setter_sec v : clock_setter (fun t => set_sec t v).

Inductive below_hour : (tm -> tm) -> Prop :=
| below_hour_min v : below_hour (fun t => set_min t v)
| below_hour_sec v : below_hour (fun t => set_sec t v).

Inductive below_minute : (tm -> tm) -> Prop :=
| below_minute_sec v : below_minute (fun t => set_sec t v).

(** The hour field [tm_increment_hour] leaves, from hour [h] and a
    quantity [n >= 0]. *)
Definition hour_left (h n : Z) : Z :=
  if h + n mod 24 <? 24 then (h + n) mod 24 else 2 * ((h + n) mod 24).

(** ** Outcomes of the reconciler *)

Section Outcomes.

Variable mktime : tm -> time_t * tm.
Variable gmtime : time_t -> option tm.
Variable utc_tm : tm.

(** The first approximation, the working copy [mktime] leaves, and the
    difference the reconciler computes for a candidate timestamp. *)
Definition approx : time_t := fst (mktime utc_tm).
Definition copy_tm : tm := snd (mktime utc_tm).
Definition diff_at (ts : time_t) : option Z :=
  get_utc_timestamp_sec_diff gmtime ts copy_tm.
Definition adjusted (one_sec secs_diff : Z) : time_t :=
  approx - one_sec * secs_diff.

(** A platform conversion attempted by the run fails: the forward
    conversion of the request, the decomposition of a timestamp the
    run looks at, or the calibration of the one-second unit. *)
Inductive conversion_fails : Prop :=
| forward_fails :
    approx = -1 -> conversion_fails
| decompose_approx_fails :
    approx <> -1 -> diff_at approx = None -> conversion_fails
| calibration_fails d :
    approx <> -1 -> diff_at approx = Some d -> d <> 0 ->
    get_sec_diff mktime = None -> conversion_fails
| decompose_adjusted_fails d u :
    approx <> -1 -> diff_at approx = Some d -> d <> 0 ->
    get_sec_diff mktime = Some u ->
    diff_at (adjusted u d) = None -> conversion_fails
| decompose_plus_fails d u d1 :
    approx <> -1 -> diff_at approx = Some d -> d <> 0 ->
    get_sec_diff mktime = Some u ->
    diff_at (adjusted u d) = Some d1 -> d1 <> 0 ->
    diff_at (adjusted u d + u) = None -> conversion_fails
| decompose_minus_fails d u d1 d2 :
    approx <> -1 -> diff_at approx = Some d -> d <> 0 ->
    get_sec_diff mktime = Some u ->
    diff_at (adjusted u d) = Some d1 -> d1 <> 0 ->
    diff_at (adjusted u d + u) = Some d2 -> d2 <> 0 ->
    diff_at (adjusted u d - u) = None -> conversion_fails.

(** After the adjustment, neither the adjusted timestamp nor either of
    its one-unit neighbours has difference 0. *)
Definition no_agreement : Prop :=
  exists d u d1 d2 d3,
    approx <> -1 /\ diff_at approx = Some d /\ d <> 0 /\
    get_sec_diff mktime = Some u /\
    diff_at (adjusted u d) = Some d1 /\ d1 <> 0 /\
    diff_at (adjusted u d + u) = Some d2 /\ d2 <> 0 /\
    diff_at (adjusted u d - u) = Some d3 /\ d3 <> 0.

End Outcomes.

(** The same outcomes read against the requested record itself. *)

Section RequestOutcomes.

Variable mktime : tm -> time_t * tm.
Variable gmtime : time_t -> option tm.
Variable utc_tm : tm.

(** The intraday difference between the requested record and the UTC
    decomposition of a candidate timestamp. *)
Definition request_diff_at (ts : time_t) : option Z :=
  get_utc_timestamp_sec_diff gmtime ts utc_tm.

(** A platform conversion attempted by the run gives its failure value:
    [mktime] returns -1 (which is also the exact timestamp of one second
    before the epoch where [time_t] counts seconds), [gmtime] returns a
    null pointer, or the calibration of the one-second unit meets a -1. *)
Inductive failure_signalled : Prop :=
| forward_signalled :
    approx mktime utc_tm = -1 -> failure_signalled
| decompose_approx_signalled :
    approx mktime utc_tm <> -1 ->
    request_diff_at (approx mktime utc_tm) = None -> failure_signalled
| calibration_signalled d :
    approx mktime utc_tm <> -1 ->
    request_diff_at (approx mktime utc_tm) = Some d -> d <> 0 ->
    get_sec_diff mktime = None -> failure_signalled
| decompose_adjusted_signalled d u :
    approx mktime utc_tm <> -1 ->
    request_diff_at (approx mktime utc_tm) = Some d -> d <> 0 ->
    get_sec_diff mktime = Some u ->
    request_diff_at (adjusted mktime utc_tm u d) = None -> failure_signalled
| decompose_plus_signalled d u d1 :
    approx mktime utc_tm <> -1 ->
    request_diff_at (approx mktime utc_tm) = Some d -> d <> 0 ->
    get_sec_diff mktime = Some u ->
    request_diff_at (adjusted mktime utc_tm u d) = Some d1 -> d1 <> 0 ->
    request_diff_at (adjusted mktime utc_tm u d + u) = None ->
    failure_signalled
| decompose_minus_signalled d u d1 d2 :
    approx mktime utc_tm <> -1 ->
    request_diff_at (approx mktime utc_tm) = Some d -> d <> 0 ->
    get_sec_diff mktime = Some u ->
    request_diff_at (adjusted mktime utc_tm u d) = Some d1 -> d1 <> 0 ->
    request_diff_at (adjusted mktime utc_tm u d + u) = Some d2 -> d2 <> 0 ->
    request_diff_at (adjusted mktime utc_tm u d - u) = None ->
    failure_signalled.

Definition no_candidate_agrees : Prop :=
  exists d u d1 d2 d3,
    approx mktime utc_tm <> -1 /\
    request_diff_at (approx mktime utc_tm) = Some d /\ d <> 0 /\
    get_sec_diff mktime = Some u /\
    request_diff_at (adjusted mktime utc_tm u d) = Some d1 /\ d1 <> 0 /\
    request_diff_at (adjusted mktime utc_tm u d + u) = Some d2 /\ d2 <> 0 /\
    request_diff_at (adjusted mktime utc_tm u d - u) = Some d3 /\ d3 <> 0.

End RequestOutcomes.

(** The forward conversion counts [u] timestamp units per second around
    the calibration datum, and succeeds there. *)
Definition uniform_at_datum (mktime : tm -> time_t * tm) (u : Z) : Prop :=
  let t0 := fst (mktime datum) in
  let d0 := snd (mktime datum) in
  t0 <> -1 /\
  fst (mktime (set_sec d0 (tm_sec d0 + 1))) = t0 + u /\
  fst (mktime (set_hour d0 (tm_hour d0 + 1))) = t0 + 3600 * u /\
  fst (mktime (set_mday d0 (tm_mday d0 + 1))) = t0 + 86400 * u /\
  t0 + u <> -1 /\ t0 + 3600 * u <> -1 /\ t0 + 86400 * u <> -1.

(** ** Example platforms

    Concrete instances of the platform parameters, on which the
    statements about calibration and reconciliation are exercised.
    [posix_mktime zone] reads the record as local time [zone] seconds
    east of Greenwich and counts seconds since 1970-01-01 00:00:00 UTC;
    [posix_gmtime] decomposes such a count.  Days are converted with the
    usual era/day-of-era arithmetic of the proleptic Gregorian
    calendar. *)

Definition days_from_civil (y m d : Z) : Z :=
  let y := if m <=? 2 then y - 1 else y in
  let era := y / 400 in
  let yoe := y - era * 400 in
  let doy := (153 * (if m >? 2 then m - 3 else m + 9) + 2) / 5 + d - 1 in
  let doe := yoe * 365 + yoe / 4 - yoe / 100 + doy in
  era * 146097 + doe - 719468.

Definition civil_from_days (z : Z) : Z * Z * Z :=
  let z := z + 719468 in
  let era := z / 146097 in
  let doe := z - era * 146097 in
  let yoe := (doe - doe / 1460 + doe / 36524 - doe / 146096) / 365 in
  let doy := doe - (365 * yoe + yoe / 4 - yoe / 100) in
  let mp := (5 * doy + 2) / 153 in
  let d := doy - (153 * mp + 2) / 5 + 1 in
  let m := if mp <? 10 then mp + 3 else mp - 9 in
  (yoe + era * 400 + (if m <=? 2 then 1 else 0), m, d).

Definition civil_seconds (r : tm) : Z :=
  let months := tm_year r * 12 + tm_mon r in
  days_from_civil (1900 + months / 12) (months mod 12 + 1) (tm_mday r) * 86400
  + tm_hour r * 3600 + tm_min r * 60 + tm_sec r.

Definition decompose (secs : Z) : tm :=
  let '(y, m, d) := civil_from_days (secs / 86400) in
  let rest := secs mod 86400 in
  mk_tm (rest mod 60) (rest / 60 mod 60) (rest / 3600) d (m - 1) (y - 1900) 0.

Definition posix_mktime (zone : Z) (r : tm) : time_t * tm :=
  (civil_seconds r - zone, decompose (civil_seconds r)).

Definition posix_gmtime (t : time_t) : option tm := Some (decompose t).

(** A platform on standard time all year, [zone] seconds east of
    Greenwich: a request flagged as daylight-saving time is read as one
    hour ahead of standard time, and the record is left in standard time
    with the flag cleared, the way [mktime] normalises its argument. *)
Definition standard_time_mktime (zone : Z) (r : tm) : time_t * tm :=
  let secs := civil_seconds r - (if 0 <? tm_isdst r then 3600 else 0) in
  (secs - zone, decompose secs).

(** A platform whose [time_t] counts whole minutes: the precision of
    [time_t] is left to the implementation. *)
Definition minute_mktime (r : tm) : time_t * tm :=
  (civil_seconds r / 60, decompose (civil_seconds r)).

(** ** Notions for the further properties *)

(** Seconds since midnight on the record's own clock. *)
Definition clock_secs (t : tm) : Z :=
  tm_hour t * 3600 + tm_min t * 60 + tm_sec t.

Definition valid_clock (t : tm) : Prop :=
  0 <= tm_hour t <= 23 /\ 0 <= tm_min t <= 59 /\ 0 <= tm_sec t <= 59.

Definition same_wall_clock (a b : tm) : Prop :=
  tm_hour a = tm_hour b /\ tm_min a = tm_min b /\ tm_sec a = tm_sec b.

(** A decomposition without leap seconds: every timestamp decomposes,
    into a clock in range, and [u] timestamp units later the clock reads
    one second more, modulo a day. *)
Definition ticks_seconds (gmtime : time_t -> option tm) (u : Z) : Prop :=
  forall t k, exists c c',
    gmtime t = Some c /\ gmtime (t + u * k) = Some c' /\
    valid_clock c /\ clock_secs c' = (clock_secs c + k) mod 86400.

(** The first day of the month after the record's, and the last day of
    the month before it, in the walkers' calendar. *)
Definition next_month_start (t : tm) : tm :=
  if tm_mon t =? 11
  then set_year (set_mon (set_mday t 1) 0)
         (if tm_year t =? -1 then 1 else tm_year t + 1)
  else set_mon (set_mday t 1) (tm_mon t + 1).

Definition previous_month_end (t : tm) : tm :=
  let t' := if tm_mon t =? 0
            then set_year (set_mon t 11)
                   (if tm_year t =? 1 then -1 else tm_year t - 1)
            else set_mon t (tm_mon t - 1) in
  set_mday t' (walker_month_length t').

(** ** Proof tools *)

Ltac zbool :=
  rewrite ?Z.gtb_ltb, ?Z.geb_leb in *;
  repeat match goal with
    | |- context [?a =? ?b] => destruct (Z.eqb_spec a b)
    | |- context [?a <? ?b] => destruct (Z.ltb_spec a b)
    | |- context [?a <=? ?b] => destruct (Z.leb_spec a b)
    end.

Ltac carry_arith := Z.to_euclidean_division_equations; lia.

Lemma month_cases (m : Z) :
  0 <= m <= 11 ->
  m = 0 \/ m = 1 \/ m = 2 \/ m = 3 \/ m = 4 \/ m = 5 \/
  m = 6 \/ m = 7 \/ m = 8 \/ m = 9 \/ m = 10 \/ m = 11.
Proof. lia. Qed.

Ltac split_month H :=
  apply month_cases in H;
  repeat match type of H with _ \/ _ => destruct H as [H | H] end.

Ltac eval_table :=
  repeat match goal with
    | |- context [days_in_month_at ?c] =>
        let v := eval vm_compute in (days_in_month_at c) in
        change (days_in_month_at c) with v
    end.

(** ** The leap-year oracle *)

(** X1. [is_leap_year] is the Gregorian rule for every integer, the
    negative ones included (C's truncating [%] does not disturb it): a
    year is leap exactly when 4 divides it and either 100 does not or 400
    does. *)
Lemma is_leap_year_gregorian (year : Z) :
  is_leap_year year = true <->
  (4 | year) /\ (~ (100 | year) \/ (400 | year)).
Proof.
  unfold is_leap_year.
  rewrite andb_true_iff, orb_true_iff, negb_true_iff, !Z.eqb_eq, Z.eqb_neq.
  rewrite !Z.rem_divide by discriminate. reflexivity.
Qed.

Lemma is_leap_year_examples :
  is_leap_year 2000 = true /\ is_leap_year 1996 = true /\
  is_leap_year 1900 = false /\ is_leap_year 2023 = false /\
  is_leap_year 2100 = false.
Proof. repeat split. Qed.

(** The walkers' question and the validator's differ exactly on the
    years whose field is a multiple of 100. *)
Lemma is_leap_year_offset (y : Z) :
  Z.rem y 100 <> 0 -> is_leap_year y = is_leap_year (y + 1900).
Proof.
  intros H; unfold is_leap_year.
  assert (Z.rem (y + 1900) 100 <> 0) by carry_arith.
  destruct (Z.eqb_spec (Z.rem y 100) 0); [contradiction|].
  destruct (Z.eqb_spec (Z.rem (y + 1900) 100) 0); [contradiction|].
  simpl. rewrite !andb_true_r.
  destruct (Z.eqb_spec (Z.rem y 4) 0), (Z.eqb_spec (Z.rem (y + 1900) 4) 0);
    try reflexivity; exfalso; carry_arith.
Qed.

(** ** The validator *)

Lemma table_agrees (m : Z) :
  0 <= m <= 11 -> days_in_month_at m = spec_days_in_month m false.
Proof. intros H; split_month H; subst m; reflexivity. Qed.

Lemma validate_date_true (r : tm) : valid_civil r -> validate_date r = true.
Proof.
  destruct r as [s mi h d m y dst]; unfold valid_civil, validate_date; simpl.
  intros (Hy & Hm & Hd & Hh & Hmi & Hs).
  destruct (is_leap_year (y + 1900)) eqn:L;
    split_month Hm; subst m; simpl in *; eval_table; zbool; simpl;
    try reflexivity; lia.
Qed.

Lemma validate_date_valid (r : tm) : validate_date r = true -> valid_civil r.
Proof.
  destruct r as [s mi h d m y dst]; unfold valid_civil, validate_date; simpl.
  destruct (Z.eqb_spec y (-1900)); [discriminate|].
  destruct (Z.ltb_spec m 0); [discriminate|].
  rewrite Z.gtb_ltb; destruct (Z.ltb_spec 11 m); [discriminate|].
  assert (Hm : 0 <= m <= 11) by lia.
  destruct (is_leap_year (y + 1900)) eqn:L;
    split_month Hm; subst m; simpl; eval_table; zbool; simpl;
    try discriminate; intros _; lia.
Qed.

(** C4. For the records whose year field plus 1900 is an [int] (the
    addition the validator performs does not overflow), [validate_date]
    answers true exactly for the records that keep every documented
    invariant: year field not the sentinel -1900, month in 0..11, clock
    fields in range, day between 1 and the month's length with February
    29 allowed exactly in a leap year (year field + 1900).  It is a
    boolean function: a record that breaks an invariant gets [false], as
    do February 30, February 29 of 2023, hour 24 and second 60, while
    February 29 of 2024 gets [true]. *)
Theorem validate_date_characterised :
  (forall r, int_range (tm_year r + 1900) ->
     (validate_date r = true <-> valid_civil r)) /\
  (forall r, int_range (tm_year r + 1900) ->
     (validate_date r = false <-> ~ valid_civil r)) /\
  validate_date (civil 124 1 30 0 0 0) = false /\
  validate_date (civil 123 1 29 0 0 0) = false /\
  validate_date (civil 124 1 29 0 0 0) = true /\
  validate_date (civil 124 5 15 24 0 0) = false /\
  validate_date (civil 124 5 15 0 0 60) = false.
Proof.
  assert (E : forall r, validate_date r = true <-> valid_civil r).
  { intros r; split; [apply validate_date_valid | apply validate_date_true]. }
  split; [intros r _; exact (E r)|]. split.
  - intros r _; rewrite <- E. destruct (validate_date r); split; congruence.
  - repeat split.
Qed.

Lemma validate_date_characterised_witness :
  int_range (tm_year (civil 124 1 29 0 0 0) + 1900) /\
  (validate_date (civil 124 1 29 0 0 0) = true <->
   valid_civil (civil 124 1 29 0 0 0)) /\
  int_range (tm_year (civil 123 1 29 0 0 0) + 1900) /\
  (validate_date (civil 123 1 29 0 0 0) = false <->
   ~ valid_civil (civil 123 1 29 0 0 0)).
Proof.
  assert (R1 : int_range (tm_year (civil 124 1 29 0 0 0) + 1900))
    by (unfold int_range, INT_MIN, INT_MAX; simpl; lia).
  assert (R2 : int_range (tm_year (civil 123 1 29 0 0 0) + 1900))
    by (unfold int_range, INT_MIN, INT_MAX; simpl; lia).
  split; [exact R1|]. split.
  - exact (proj1 validate_date_characterised _ R1).
  - split; [exact R2|].
    exact (proj1 (proj2 validate_date_characterised) _ R2).
Defined.

(** ** The comparator *)

Lemma tm_compare_lexicographic (a b : tm) :
  tm_compare a b = ordering_code (civil_order a b).
Proof.
  unfold tm_compare, civil_order, civil_fields; simpl.
  rewrite !Z.gtb_ltb.
  repeat match goal with
    | |- context [?x =? ?y] =>
        destruct (Z.eqb_spec x y) as [->|];
        [rewrite Z.compare_refl; simpl
        |simpl; destruct (Z.ltb_spec y x), (Z.compare_spec x y);
         simpl; solve [reflexivity | lia]]
    end.
  reflexivity.
Qed.

(** The comparator and the difference read only the six civil fields. *)
Lemma tm_intraday_secs_diff_fields (a a' b : tm) :
  civil_fields a = civil_fields a' ->
  tm_intraday_secs_diff a b = tm_intraday_secs_diff a' b.
Proof.
  unfold civil_fields; intros [= Hy Hmo Hd Hh Hmi Hs].
  unfold tm_intraday_secs_diff, tm_compare.
  now rewrite Hy, Hmo, Hd, Hh, Hmi, Hs.
Qed.

(** C5. [tm_intraday_secs_diff a b] is 0 when the comparator finds the
    records EQUAL; otherwise it is the raw clock difference
    (b.hour-a.hour)*3600 + (b.minute-a.minute)*60 + (b.second-a.second),
    less 86400 when [a] is GREATER and the raw value is positive, plus
    86400 when [a] is LESS and the raw value is negative.  The comparator
    itself is the lexicographic order on (year, month, day, hour, minute,
    second), and 23:00:00 against 01:00:00 of the next day gives +7200. *)
Theorem tm_intraday_secs_diff_cases :
  (forall a b, tm_compare a b = ordering_code (civil_order a b)) /\
  (forall a b,
     tm_intraday_secs_diff a b =
     match civil_order a b with
     | EQUAL => 0
     | GREATER =>
         if 0 <? raw_secs_diff a b
         then raw_secs_diff a b - 86400 else raw_secs_diff a b
     | LESS =>
         if raw_secs_diff a b <? 0
         then raw_secs_diff a b + 86400 else raw_secs_diff a b
     end) /\
  tm_intraday_secs_diff (civil 70 0 1 23 0 0) (civil 70 0 2 1 0 0) = 7200.
Proof.
  split; [exact tm_compare_lexicographic|]. split; [|reflexivity].
  intros a b. unfold tm_intraday_secs_diff.
  rewrite tm_compare_lexicographic.
  unfold raw_secs_diff, secs_in_hour, secs_in_min, secs_in_day.
  rewrite !Z.gtb_ltb.
  destruct (civil_order a b); simpl; try reflexivity;
    match goal with |- context [?x <? ?y] => destruct (x <? y) end;
    reflexivity.
Qed.

(** ** The day walkers *)

Section Loop.

Variable body : tm -> option tm.

Lemma while_countdown_invariant (P : tm -> Prop) :
  (forall t, P t -> exists t', body t = Some t' /\ P t') ->
  forall n t, P t -> exists t', while_countdown body n t = Some t' /\ P t'.
Proof.
  intros step; induction n as [|n IH]; intros t Ht; simpl.
  - now exists t.
  - destruct (step t Ht) as (t1 & -> & Ht1); simpl. now apply IH.
Qed.

Lemma while_countdown_frame {A : Type} (f : tm -> A) :
  (forall t t', body t = Some t' -> f t' = f t) ->
  forall n t t', while_countdown body n t = Some t' -> f t' = f t.
Proof.
  intros step; induction n as [|n IH]; intros t t'; simpl.
  - now intros [= ->].
  - destruct (body t) as [t1|] eqn:E; simpl; [|discriminate].
    intros H. rewrite (IH _ _ H). now apply step.
Qed.

Lemma while_countdown_last (n : nat) (t : tm) :
  while_countdown body (S n) t = (t1 <- while_countdown body n t ;; body t1).
Proof.
  revert t; induction n as [|n IH]; intros t.
  - simpl. now destruct (body t).
  - change (while_countdown body (S (S n)) t)
      with (t1 <- body t ;; while_countdown body (S n) t1).
    change (while_countdown body (S n) t)
      with (t1 <- body t ;; while_countdown body n t1).
    destruct (body t) as [t1|]; simpl; [apply IH|reflexivity].
Qed.

End Loop.

Section ThereAndBack.

Variables forth back : tm -> option tm.
Variable P : tm -> Prop.
Hypothesis undo :
  forall t, P t -> exists t', forth t = Some t' /\ P t' /\ back t' = Some t.

Lemma while_countdown_undo (n : nat) (t : tm) :
  P t ->
  exists t', while_countdown forth n t = Some t' /\ P t' /\
             while_countdown back n t' = Some t.
Proof.
  revert t; induction n as [|n IH]; intros t Ht.
  - exists t; simpl; auto.
  - destruct (undo t Ht) as (t1 & F1 & P1 & B1).
    destruct (IH t1 P1) as (t' & F' & P' & B').
    exists t'. split; [|split; [assumption|]].
    + simpl. rewrite F1. exact F'.
    + rewrite while_countdown_last, B'. exact B1.
Qed.

End ThereAndBack.

Lemma increment_day_delegates (t : tm) (q : Z) :
  q < 0 -> tm_increment_day t q = tm_decrement_day t (- q).
Proof.
  intros H; unfold tm_increment_day, tm_decrement_day.
  destruct (Z.ltb_spec q 0), (Z.ltb_spec (- q) 0); try lia; reflexivity.
Qed.

Lemma decrement_day_delegates (t : tm) (q : Z) :
  q < 0 -> tm_decrement_day t q = tm_increment_day t (- q).
Proof.
  intros H; unfold tm_increment_day, tm_decrement_day.
  destruct (Z.ltb_spec q 0), (Z.ltb_spec (- q) 0); try lia; reflexivity.
Qed.

Lemma month_case_in_range (m : Z) :
  0 <= m <= 11 -> exists c, month_case m = Some c.
Proof. intros H; split_month H; subst m; eexists; reflexivity. Qed.

Lemma month_case_default (m : Z) :
  month_case m = None <-> ~ 0 <= m <= 11.
Proof.
  unfold month_case; zbool; split; intros H;
    try reflexivity; try discriminate; lia.
Qed.

Lemma increment_day_step_month (t : tm) :
  month_in_range t ->
  exists t', increment_day_step t = Some t' /\ month_in_range t'.
Proof.
  destruct t as [s mi h d m y dst]; unfold month_in_range; simpl; intros Hm.
  unfold increment_day_step; simpl.
  split_month Hm; subst m; simpl;
    repeat match goal with
      | |- context [if ?b then _ else _] => destruct b
      end;
    eexists; (split; [reflexivity|]); simpl; lia.
Qed.

Lemma decrement_day_step_month (t : tm) :
  month_in_range t ->
  exists t', decrement_day_step t = Some t' /\ month_in_range t'.
Proof.
  destruct t as [s mi h d m y dst]; unfold month_in_range; simpl; intros Hm.
  unfold decrement_day_step; simpl.
  split_month Hm; subst m; simpl;
    repeat match goal with
      | |- context [if ?b then _ else _] => destruct b
      end;
    eexists; (split; [reflexivity|]); simpl; lia.
Qed.

Lemma increment_day_step_clock (t t' : tm) :
  increment_day_step t = Some t' -> clock_of t' = clock_of t.
Proof.
  destruct t as [s mi h d m y dst]; unfold increment_day_step; simpl.
  destruct (month_case m) as [[]|]; simpl;
    repeat match goal with
      | |- context [if ?b then _ else _] => destruct b
      end;
    intros [= <-]; reflexivity.
Qed.

Lemma decrement_day_step_clock (t t' : tm) :
  decrement_day_step t = Some t' -> clock_of t' = clock_of t.
Proof.
  destruct t as [s mi h d m y dst]; unfold decrement_day_step; simpl.
  destruct (d >? 1); [intros [= <-]; reflexivity|].
  destruct (month_case m) as [[]|]; simpl;
    repeat match goal with
      | |- context [if ?b then _ else _] => destruct b
      end;
    intros [= <-]; reflexivity.
Qed.

Lemma clock_of_same (a b : tm) : clock_of b = clock_of a -> same_clock a b.
Proof. unfold clock_of, same_clock; intros [= -> -> -> ->]; auto. Qed.

(** C9. From a record whose month is in 0..11, [tm_increment_day] and
    [tm_decrement_day] return for every quantity whose negation is an
    [int] (every [int] but [INT_MIN]): neither reaches the
    [default: assert(false)] label of its switch, and the month of the
    result is again in 0..11.  Each turn of either loop keeps the month
    in range. *)
Theorem day_walkers_keep_month_in_range (t : tm) (quantity : Z) :
  month_in_range t ->
  negatable quantity ->
  (exists t', increment_day_step t = Some t' /\ month_in_range t') /\
  (exists t', decrement_day_step t = Some t' /\ month_in_range t') /\
  (exists t', tm_increment_day t quantity = Some t' /\ month_in_range t') /\
  (exists t', tm_decrement_day t quantity = Some t' /\ month_in_range t').
Proof.
  intros Ht _.
  split; [now apply increment_day_step_month|].
  split; [now apply decrement_day_step_month|].
  unfold tm_increment_day, tm_decrement_day,
    increment_day_loop, decrement_day_loop.
  split; destruct (quantity <? 0);
    (apply while_countdown_invariant; [|assumption]);
    auto using increment_day_step_month, decrement_day_step_month.
Qed.

Lemma day_walkers_keep_month_in_range_witness :
  month_in_range (civil 99 11 31 0 0 0) /\
  negatable (-400) /\
  (exists t', tm_increment_day (civil 99 11 31 0 0 0) (-400) = Some t' /\
              month_in_range t') /\
  (exists t', tm_decrement_day (civil 99 11 31 0 0 0) (-400) = Some t' /\
              month_in_range t').
Proof.
  assert (H : month_in_range (civil 99 11 31 0 0 0))
    by (unfold month_in_range; simpl; lia).
  assert (N : negatable (-400))
    by (unfold negatable, INT_MIN, INT_MAX; lia).
  split; [exact H|]. split; [exact N|].
  exact (proj2 (proj2
           (day_walkers_keep_month_in_range (civil 99 11 31 0 0 0) (-400)
              H N))).
Defined.

(** C10. Whatever the record and the quantity (positive, zero or
    negative), when [tm_increment_day] or [tm_decrement_day] returns, the
    hour, minute, second and DST fields are those of the argument: only
    day, month and year can differ. *)
Theorem day_walkers_leave_clock_alone (t t' : tm) (quantity : Z) :
  tm_increment_day t quantity = Some t' \/
  tm_decrement_day t quantity = Some t' ->
  same_clock t t'.
Proof.
  unfold tm_increment_day, tm_decrement_day,
    increment_day_loop, decrement_day_loop.
  intros H; apply clock_of_same.
  destruct H as [H|H]; destruct (quantity <? 0);
    revert H; apply while_countdown_frame;
    auto using increment_day_step_clock, decrement_day_step_clock.
Qed.


Lemma day_walkers_leave_clock_alone_witness :
  tm_increment_day (mk_tm 30 20 10 15 2 124 1) (-45)
    = Some (mk_tm 30 20 10 30 0 124 1) /\
  same_clock (mk_tm 30 20 10 15 2 124 1) (mk_tm 30 20 10 30 0 124 1).
Proof.
  assert (H : tm_increment_day (mk_tm 30 20 10 15 2 124 1) (-45)
              = Some (mk_tm 30 20 10 30 0 124 1)) by reflexivity.
  split; [exact H|].
  exact (day_walkers_leave_clock_alone _ _ (-45) (or_introl H)).
Defined.

Lemma increment_day_once (t : tm) :
  tm_increment_day t 1 = increment_day_step t.
Proof.
  unfold tm_increment_day, increment_day_loop; simpl.
  now destruct (increment_day_step t).
Qed.

Lemma decrement_day_once (t : tm) :
  tm_decrement_day t 1 = decrement_day_step t.
Proof.
  unfold tm_decrement_day, decrement_day_loop; simpl.
  now destruct (decrement_day_step t).
Qed.

(** C7. A day added to a record standing on (or beyond) December 31
    gives January 1 with the year field set to 1 when it was -1, and one
    more than it was otherwise; a day taken from a record standing on
    January 1 gives December 31 with the year field set to -1 when it
    was 1, and one less than it was otherwise.  The year field never
    passes through 0 from -1 or from 1. *)
Theorem year_rollover_skips_zero (t : tm) :
  (tm_mon t = 11 -> 31 <= tm_mday t ->
   exists t', tm_increment_day t 1 = Some t' /\
     tm_mon t' = 0 /\ tm_mday t' = 1 /\
     (tm_year t = -1 -> tm_year t' = 1) /\
     (tm_year t <> -1 -> tm_year t' = tm_year t + 1)) /\
  (tm_mon t = 0 -> tm_mday t <= 1 ->
   exists t', tm_decrement_day t 1 = Some t' /\
     tm_mon t' = 11 /\ tm_mday t' = 31 /\
     (tm_year t = 1 -> tm_year t' = -1) /\
     (tm_year t <> 1 -> tm_year t' = tm_year t - 1)).
Proof.
  rewrite increment_day_once, decrement_day_once.
  destruct t as [s mi h d m y dst]; simpl; split; intros -> Hd.
  - unfold increment_day_step; simpl.
    rewrite Z.gtb_ltb. destruct (Z.ltb_spec 31 (d + 1)); [|lia].
    destruct (Z.eqb_spec y (-1)); eexists; (split; [reflexivity|]);
      simpl; repeat split; intros; lia.
  - unfold decrement_day_step; simpl.
    rewrite Z.gtb_ltb. destruct (Z.ltb_spec 1 d); [lia|]. simpl.
    destruct (Z.eqb_spec y 1); eexists; (split; [reflexivity|]);
      simpl; repeat split; intros; lia.
Qed.

Lemma year_rollover_skips_zero_witness :
  (exists t', tm_increment_day (civil (-1) 11 31 23 59 59) 1 = Some t' /\
     tm_mon t' = 0 /\ tm_mday t' = 1 /\
     (-1 = -1 -> tm_year t' = 1) /\
     (-1 <> -1 -> tm_year t' = -1 + 1)) /\
  (exists t', tm_decrement_day (civil 1 0 1 0 0 0) 1 = Some t' /\
     tm_mon t' = 11 /\ tm_mday t' = 31 /\
     (1 = 1 -> tm_year t' = -1) /\
     (1 <> 1 -> tm_year t' = 1 - 1)).
Proof.
  split.
  - apply (proj1 (year_rollover_skips_zero (civil (-1) 11 31 23 59 59)));
      simpl; [reflexivity | lia].
  - apply (proj2 (year_rollover_skips_zero (civil 1 0 1 0 0 0)));
      simpl; [reflexivity | lia].
Defined.

(** What the walkers do at the end of February: the leap-year oracle is
    asked about the year field itself. *)
Lemma february_28_plus_one (t : tm) :
  tm_mon t = 1 -> tm_mday t = 28 ->
  tm_increment_day t 1 =
  Some (if is_leap_year (tm_year t)
        then set_mday t 29
        else set_mon (set_mday t 1) 2).
Proof.
  rewrite increment_day_once.
  destruct t as [s mi h d m y dst]; simpl; intros -> ->.
  unfold increment_day_step; simpl. now destruct (is_leap_year y).
Qed.

Lemma march_1_minus_one (t : tm) :
  tm_mon t = 2 -> tm_mday t = 1 ->
  tm_decrement_day t 1 =
  Some (if is_leap_year (tm_year t)
        then set_mon (set_mday t 29) 1
        else set_mon (set_mday t 28) 1).
Proof.
  rewrite decrement_day_once.
  destruct t as [s mi h d m y dst]; simpl; intros -> ->.
  unfold decrement_day_step; simpl. now destruct (is_leap_year y).
Qed.

(** ** The calibrator *)

Section Calibration.

Variable mktime : tm -> time_t * tm.

Lemma calibrate_uniform (u : Z) :
  uniform_at_datum mktime u ->
  get_sec_diff mktime = Some u /\
  get_hour_diff mktime = Some (3600 * u) /\
  get_day_diff mktime = Some (86400 * u).
Proof.
  unfold uniform_at_datum, get_sec_diff, get_hour_diff, get_day_diff.
  destruct (mktime datum) as [t0 d0]; cbn [fst snd].
  intros (H0 & Hs & Hh & Hd & Ns & Nh & Nd).
  destruct (Z.eqb_spec t0 (-1)); [contradiction|].
  destruct (mktime (set_sec d0 (tm_sec d0 + 1))) as [ts ?].
  destruct (mktime (set_hour d0 (tm_hour d0 + 1))) as [th ?].
  destruct (mktime (set_mday d0 (tm_mday d0 + 1))) as [td ?].
  cbn [fst snd] in *; subst ts th td.
  destruct (Z.eqb_spec (t0 + u) (-1)); [contradiction|].
  destruct (Z.eqb_spec (t0 + 3600 * u) (-1)); [contradiction|].
  destruct (Z.eqb_spec (t0 + 86400 * u) (-1)); [contradiction|].
  repeat split; f_equal; lia.
Qed.

End Calibration.

(** C8 as stated fails: on a platform whose [time_t] counts whole minutes
    the three calibrations succeed with 1440, 60 and 0, and 1440 is not
    86400 times 0. *)
Lemma calibration_inconsistent_on_minute_clock :
  ~ (forall (mktime : tm -> time_t * tm) (day hour sec : time_t),
       get_day_diff mktime = Some day ->
       get_hour_diff mktime = Some hour ->
       get_sec_diff mktime = Some sec ->
       day = 24 * hour /\ day = 86400 * sec).
Proof.
  intros H.
  destruct (H minute_mktime 1440 60 0) as [_ E]; try reflexivity.
  discriminate E.
Qed.

(** C8, amended. On a platform whose forward conversion succeeds at the
    calibration datum and at the instants one second, one hour and one
    day after it, and counts a fixed number [u] of timestamp units per
    second between them (POSIX: [u = 1]), the three calibrated sizes are
    [u], [3600 u] and [86400 u]: the day size is 24 times the hour size
    and 86400 times the second size. *)
Theorem calibration_consistent_when_uniform
    (mktime : tm -> time_t * tm) (u : Z) :
  uniform_at_datum mktime u ->
  exists day hour sec,
    get_day_diff mktime = Some day /\
    get_hour_diff mktime = Some hour /\
    get_sec_diff mktime = Some sec /\
    sec = u /\ day = 24 * hour /\ day = 86400 * sec.
Proof.
  intros H. destruct (calibrate_uniform mktime u H) as (Hs & Hh & Hd).
  exists (86400 * u), (3600 * u), u. repeat split; auto; lia.
Qed.

Lemma calibration_consistent_on_posix :
  uniform_at_datum (posix_mktime 3600) 1 /\
  exists day hour sec,
    get_day_diff (posix_mktime 3600) = Some day /\
    get_hour_diff (posix_mktime 3600) = Some hour /\
    get_sec_diff (posix_mktime 3600) = Some sec /\
    sec = 1 /\ day = 24 * hour /\ day = 86400 * sec.
Proof.
  assert (U : uniform_at_datum (posix_mktime 3600) 1).
  { unfold uniform_at_datum; vm_compute; repeat split; discriminate. }
  split; [exact U|].
  exact (calibration_consistent_when_uniform (posix_mktime 3600) 1 U).
Defined.

(** ** The reconciler *)

Section Reconciliation.

Variable mktime : tm -> time_t * tm.
Variable gmtime : time_t -> option tm.
Variable utc_tm : tm.

Let ts0 := approx mktime utc_tm.
Let diff := diff_at mktime gmtime utc_tm.
Let adj := adjusted mktime utc_tm.
Let result := get_utc_timestamp mktime gmtime utc_tm.

Lemma get_utc_timestamp_unfold :
  result =
  if ts0 =? -1 then None
  else
    d <- diff ts0 ;;
    if negb (d =? 0) then
      u <- get_sec_diff mktime ;;
      d1 <- diff (adj u d) ;;
      if negb (d1 =? 0) then
        d2 <- diff (adj u d + u) ;;
        if d2 =? 0 then Some (adj u d + u)
        else
          d3 <- diff (adj u d - u) ;;
          if d3 =? 0 then Some (adj u d - u) else None
      else Some (adj u d)
    else Some ts0.
Proof.
  unfold result, get_utc_timestamp, ts0, diff, adj,
    diff_at, adjusted, approx, copy_tm.
  destruct (mktime utc_tm) as [t c]; reflexivity.
Qed.

Lemma diff_against_request (ts : time_t) :
  civil_fields (copy_tm mktime utc_tm) = civil_fields utc_tm ->
  diff ts = get_utc_timestamp_sec_diff gmtime ts utc_tm.
Proof.
  intros E; unfold diff, diff_at, get_utc_timestamp_sec_diff.
  destruct (gmtime ts) as [check_tm|]; simpl; [|reflexivity].
  now rewrite (tm_intraday_secs_diff_fields _ _ _ E).
Qed.

Lemma result_exact :
  ts0 <> -1 -> diff ts0 = Some 0 -> result = Some ts0.
Proof.
  intros N D. rewrite get_utc_timestamp_unfold, D.
  destruct (Z.eqb_spec ts0 (-1)); [contradiction|reflexivity].
Qed.

Lemma result_adjusted (d u : Z) :
  ts0 <> -1 -> diff ts0 = Some d -> d <> 0 ->
  get_sec_diff mktime = Some u ->
  (diff (adj u d) = Some 0 -> result = Some (adj u d)) /\
  (forall d1, diff (adj u d) = Some d1 -> d1 <> 0 ->
     diff (adj u d + u) = Some 0 -> result = Some (adj u d + u)) /\
  (forall d1 d2, diff (adj u d) = Some d1 -> d1 <> 0 ->
     diff (adj u d + u) = Some d2 -> d2 <> 0 ->
     diff (adj u d - u) = Some 0 -> result = Some (adj u d - u)).
Proof.
  intros N D Nd U. rewrite get_utc_timestamp_unfold, D, U.
  destruct (Z.eqb_spec ts0 (-1)); [contradiction|]. simpl.
  destruct (Z.eqb_spec d 0); [contradiction|]. simpl.
  split; [|split].
  - intros ->. reflexivity.
  - intros d1 -> N1 ->. simpl.
    destruct (Z.eqb_spec d1 0); [contradiction|reflexivity].
  - intros d1 d2 -> N1 -> N2 ->. simpl.
    destruct (Z.eqb_spec d1 0); [contradiction|]. simpl.
    destruct (Z.eqb_spec d2 0); [contradiction|reflexivity].
Qed.

Lemma result_agrees (ts : time_t) :
  result = Some ts ->
  diff ts = Some 0 /\
  (ts = ts0 \/
   exists d u, diff ts0 = Some d /\ d <> 0 /\ get_sec_diff mktime = Some u /\
     (ts = adj u d \/ ts = adj u d + u \/ ts = adj u d - u)).
Proof.
  rewrite get_utc_timestamp_unfold.
  destruct (ts0 =? -1); [discriminate|].
  destruct (diff ts0) as [d|] eqn:D; simpl; [|discriminate].
  destruct (Z.eqb_spec d 0) as [->|]; simpl; [intros [= <-]; auto|].
  destruct (get_sec_diff mktime) as [u|]; simpl; [|discriminate].
  destruct (diff (adj u d)) as [d1|] eqn:D1; simpl; [|discriminate].
  destruct (Z.eqb_spec d1 0) as [->|]; simpl;
    [intros [= <-]; split; [assumption|right; exists d, u; auto]|].
  destruct (diff (adj u d + u)) as [d2|] eqn:D2; simpl; [|discriminate].
  destruct (Z.eqb_spec d2 0) as [->|]; simpl;
    [intros [= <-]; split; [assumption|right; exists d, u; auto 6]|].
  destruct (diff (adj u d - u)) as [d3|] eqn:D3; simpl; [|discriminate].
  destruct (Z.eqb_spec d3 0) as [->|]; simpl;
    [intros [= <-]; split; [assumption|right; exists d, u; auto 6]|].
  discriminate.
Qed.

Lemma result_fatal :
  result = None <->
  conversion_fails mktime gmtime utc_tm \/ no_agreement mktime gmtime utc_tm.
Proof.
  rewrite get_utc_timestamp_unfold. unfold no_agreement.
  fold ts0 diff adj.
  assert (I : conversion_fails mktime gmtime utc_tm ->
              forall P : Prop,
                (ts0 = -1 -> P) ->
                (ts0 <> -1 -> diff ts0 = None -> P) ->
                (forall d, ts0 <> -1 -> diff ts0 = Some d -> d <> 0 ->
                   get_sec_diff mktime = None -> P) ->
                (forall d u, ts0 <> -1 -> diff ts0 = Some d -> d <> 0 ->
                   get_sec_diff mktime = Some u ->
                   diff (adj u d) = None -> P) ->
                (forall d u d1, ts0 <> -1 -> diff ts0 = Some d -> d <> 0 ->
                   get_sec_diff mktime = Some u ->
                   diff (adj u d) = Some d1 -> d1 <> 0 ->
                   diff (adj u d + u) = None -> P) ->
                (forall d u d1 d2, ts0 <> -1 -> diff ts0 = Some d -> d <> 0 ->
                   get_sec_diff mktime = Some u ->
                   diff (adj u d) = Some d1 -> d1 <> 0 ->
                   diff (adj u d + u) = Some d2 -> d2 <> 0 ->
                   diff (adj u d - u) = None -> P) ->
                P).
  { intros F P; destruct F; eauto. }
  destruct (Z.eqb_spec ts0 (-1)) as [E0|E0].
  { split; [intros _; left; now apply forward_fails | reflexivity]. }
  destruct (diff ts0) as [d|] eqn:D0; simpl;
    [|split; [intros _; left; now apply decompose_approx_fails
              |reflexivity]].
  destruct (Z.eqb_spec d 0) as [->|Nd]; simpl.
  { split; [discriminate|]. intros [F|(d & u & d1 & d2 & d3 & N)].
    - apply (I F); intros; congruence.
    - destruct N as (_ & ? & ? & _); congruence. }
  destruct (get_sec_diff mktime) as [u|] eqn:U; simpl;
    [|split; [intros _; left; eapply calibration_fails; eauto
              |reflexivity]].
  destruct (diff (adj u d)) as [d1|] eqn:D1; simpl;
    [|split; [intros _; left; eapply decompose_adjusted_fails; eauto
              |reflexivity]].
  destruct (Z.eqb_spec d1 0) as [->|N1]; simpl.
  { split; [discriminate|]. intros [F|(d' & u' & d1' & d2 & d3 & N)].
    - apply (I F); intros; congruence.
    - destruct N as (_ & ? & ? & ? & ? & ? & _); congruence. }
  destruct (diff (adj u d + u)) as [d2|] eqn:D2; simpl;
    [|split; [intros _; left; eapply decompose_plus_fails; eauto
              |reflexivity]].
  destruct (Z.eqb_spec d2 0) as [->|N2]; simpl.
  { split; [discriminate|]. intros [F|(d' & u' & d1' & d2 & d3 & N)].
    - apply (I F); intros; congruence.
    - destruct N as (_ & ? & ? & ? & ? & ? & ? & ? & _); congruence. }
  destruct (diff (adj u d - u)) as [d3|] eqn:D3; simpl;
    [|split; [intros _; left; eapply decompose_minus_fails; eauto
              |reflexivity]].
  destruct (Z.eqb_spec d3 0) as [->|N3]; simpl.
  { split; [discriminate|]. intros [F|(d' & u' & d1' & d2' & d3 & N)].
    - apply (I F); intros; congruence.
    - destruct N as (_ & ? & ? & ? & ? & ? & ? & ? & ? & ?); congruence. }
  split; [intros _; right|reflexivity].
  exists d, u, d1, d2, d3. repeat split; assumption.
Qed.

End Reconciliation.

(** On every platform, read against the working copy:
    [get_utc_timestamp] returns the forward conversion's timestamp
    unchanged when its difference against the working copy is 0 (the
    copy is the request as [mktime] leaves it: when [mktime] keeps its
    six civil fields, differences against the copy are differences
    against the request); otherwise it subtracts the difference times
    the calibrated second, checks again, and then tries the adjusted
    timestamp plus one unit and minus one unit, in that order.  Whatever
    it returns has difference 0 and is one of these four timestamps.  It
    ends the process exactly when a platform conversion it attempts
    fails or when neither the adjusted timestamp nor either neighbour has
    difference 0. *)
Theorem get_utc_timestamp_outcomes
    (mktime : tm -> time_t * tm) (gmtime : time_t -> option tm) (utc_tm : tm) :
  let ts0 := approx mktime utc_tm in
  let diff := diff_at mktime gmtime utc_tm in
  let adj := adjusted mktime utc_tm in
  let result := get_utc_timestamp mktime gmtime utc_tm in
  (civil_fields (copy_tm mktime utc_tm) = civil_fields utc_tm ->
   forall ts, diff ts = get_utc_timestamp_sec_diff gmtime ts utc_tm) /\
  (ts0 <> -1 -> diff ts0 = Some 0 -> result = Some ts0) /\
  (forall d u,
     ts0 <> -1 -> diff ts0 = Some d -> d <> 0 ->
     get_sec_diff mktime = Some u ->
     (diff (adj u d) = Some 0 -> result = Some (adj u d)) /\
     (forall d1, diff (adj u d) = Some d1 -> d1 <> 0 ->
        diff (adj u d + u) = Some 0 -> result = Some (adj u d + u)) /\
     (forall d1 d2, diff (adj u d) = Some d1 -> d1 <> 0 ->
        diff (adj u d + u) = Some d2 -> d2 <> 0 ->
        diff (adj u d - u) = Some 0 -> result = Some (adj u d - u))) /\
  (forall ts, result = Some ts ->
     diff ts = Some 0 /\
     (ts = ts0 \/
      exists d u, diff ts0 = Some d /\ d <> 0 /\ get_sec_diff mktime = Some u /\
        (ts = adj u d \/ ts = adj u d + u \/ ts = adj u d - u))) /\
  (result = None <->
   conversion_fails mktime gmtime utc_tm \/ no_agreement mktime gmtime utc_tm).
Proof.
  cbv zeta. split; [intros E ts; now apply diff_against_request|].
  split; [apply result_exact|].
  split; [apply result_adjusted|].
  split; [apply result_agrees|apply result_fatal].
Qed.

Lemma get_utc_timestamp_on_posix :
  (forall ts,
     diff_at (posix_mktime 3600) posix_gmtime (civil 100 1 29 0 0 0) ts =
     get_utc_timestamp_sec_diff posix_gmtime ts (civil 100 1 29 0 0 0)) /\
  get_utc_timestamp (posix_mktime 0) posix_gmtime (civil 100 1 29 0 0 0)
    = Some 951782400 /\
  get_utc_timestamp (posix_mktime 3600) posix_gmtime (civil 100 1 29 0 0 0)
    = Some 951782400 /\
  diff_at (posix_mktime 3600) posix_gmtime (civil 100 1 29 0 0 0) 951782400
    = Some 0.
Proof.
  split; [|split; [|split]].
  - apply (proj1 (get_utc_timestamp_outcomes
                    (posix_mktime 3600) posix_gmtime (civil 100 1 29 0 0 0))).
    reflexivity.
  - apply (proj1 (proj2 (get_utc_timestamp_outcomes
                    (posix_mktime 0) posix_gmtime (civil 100 1 29 0 0 0)))).
    + vm_compute; discriminate.
    + reflexivity.
  - apply (proj1 (proj1 (proj2 (proj2 (get_utc_timestamp_outcomes
                    (posix_mktime 3600) posix_gmtime (civil 100 1 29 0 0 0))))
                    (-3600) 1 ltac:(vm_compute; discriminate)
                    eq_refl ltac:(discriminate) eq_refl)).
    reflexivity.
  - apply (proj1 (proj2 (proj2 (proj2 (get_utc_timestamp_outcomes
                    (posix_mktime 3600) posix_gmtime (civil 100 1 29 0 0 0)))))).
    reflexivity.
Defined.

(** ** The reconciler and the requested record *)

Section AgainstTheRequest.

Variable mktime : tm -> time_t * tm.
Variable gmtime : time_t -> option tm.
Variable utc_tm : tm.

Hypothesis kept : forall ts,
  diff_at mktime gmtime utc_tm ts = request_diff_at gmtime utc_tm ts.

Ltac to_request :=
  repeat match goal with
    | H : context [diff_at mktime gmtime utc_tm ?x] |- _ =>
        rewrite (kept x) in H
    end;
  rewrite ?kept.

Ltac to_copy :=
  repeat match goal with
    | H : context [request_diff_at gmtime utc_tm ?x] |- _ =>
        rewrite <- (kept x) in H
    end;
  rewrite <- ?kept.

Lemma failure_signalled_iff :
  conversion_fails mktime gmtime utc_tm <->
  failure_signalled mktime gmtime utc_tm.
Proof.
  split; intros F; destruct F.
  - now apply forward_signalled.
  - to_request. now apply decompose_approx_signalled.
  - to_request. eapply calibration_signalled; eauto.
  - to_request. eapply decompose_adjusted_signalled; eauto.
  - to_request. eapply decompose_plus_signalled; eauto.
  - to_request. eapply decompose_minus_signalled; eauto.
  - now apply forward_fails.
  - to_copy. now apply decompose_approx_fails.
  - to_copy. eapply calibration_fails; eauto.
  - to_copy. eapply decompose_adjusted_fails; eauto.
  - to_copy. eapply decompose_plus_fails; eauto.
  - to_copy. eapply decompose_minus_fails; eauto.
Qed.

Lemma no_candidate_agrees_iff :
  no_agreement mktime gmtime utc_tm <->
  no_candidate_agrees mktime gmtime utc_tm.
Proof.
  unfold no_agreement, no_candidate_agrees.
  split; intros (d & u & d1 & d2 & d3 & H); exists d, u, d1, d2, d3;
    [to_request | to_copy]; exact H.
Qed.

End AgainstTheRequest.




(** ** Carries

    What each incrementer leaves in its own field and what it hands to
    the next larger unit. *)

Lemma while_countdown_commutes (body : tm -> option tm) (g : tm -> tm) :
  commutes body g -> forall n, commutes (while_countdown body n) g.
Proof.
  intros C; induction n as [|n IH]; intros t; simpl; [reflexivity|].
  rewrite C. destruct (body t) as [t1|]; simpl; [apply IH|reflexivity].
Qed.

Lemma increment_day_step_commutes (g : tm -> tm) :
  clock_setter g -> commutes increment_day_step g.
Proof.
  intros [v|v|v] [s mi h d m y dst]; unfold increment_day_step; simpl;
    destruct (month_case m) as [[]|]; simpl;
    repeat match goal with
      | |- context [if ?b then _ else _] => destruct b
      end; reflexivity.
Qed.

Lemma decrement_day_step_commutes (g : tm -> tm) :
  clock_setter g -> commutes decrement_day_step g.
Proof.
  intros [v|v|v] [s mi h d m y dst]; unfold decrement_day_step; simpl;
    (destruct (d >? 1); [reflexivity|]);
    destruct (month_case m) as [[]|]; simpl;
    repeat match goal with
      | |- context [if ?b then _ else _] => destruct b
      end; reflexivity.
Qed.

Lemma tm_increment_day_commutes (g : tm -> tm) (q : Z) :
  clock_setter g -> commutes (fun t => tm_increment_day t q) g.
Proof.
  intros G t; unfold tm_increment_day, increment_day_loop, decrement_day_loop.
  destruct (q <? 0); apply while_countdown_commutes;
    auto using increment_day_step_commutes, decrement_day_step_commutes.
Qed.

Lemma tm_decrement_day_commutes (g : tm -> tm) (q : Z) :
  clock_setter g -> commutes (fun t => tm_decrement_day t q) g.
Proof.
  intros G t; unfold tm_decrement_day, increment_day_loop, decrement_day_loop.
  destruct (q <? 0); apply while_countdown_commutes;
    auto using increment_day_step_commutes, decrement_day_step_commutes.
Qed.

Lemma tm_increment_day_zero (t : tm) : tm_increment_day t 0 = Some t.
Proof. reflexivity. Qed.

Lemma set_hour_same (t : tm) : set_hour t (tm_hour t) = t.
Proof. now destruct t. Qed.

Lemma set_min_same (t : tm) : set_min t (tm_min t) = t.
Proof. now destruct t. Qed.

Lemma set_sec_same (t : tm) : set_sec t (tm_sec t) = t.
Proof. now destruct t. Qed.

Section ThenSet.

Variable F : tm -> option tm.
Variable k : Z -> Z.

Lemma then_set_hour (t : tm) (v : Z) :
  commutes F (fun t => set_hour t v) ->
  (t0 <- F (set_hour t v) ;; Some (set_hour t0 (k (tm_hour t0)))) =
  option_map (fun t' => set_hour t' (k v)) (F t).
Proof. intros C; rewrite C; now destruct (F t). Qed.

Lemma then_set_min (t : tm) (v : Z) :
  commutes F (fun t => set_min t v) ->
  (t0 <- F (set_min t v) ;; Some (set_min t0 (k (tm_min t0)))) =
  option_map (fun t' => set_min t' (k v)) (F t).
Proof. intros C; rewrite C; now destruct (F t). Qed.

Lemma then_set_sec (t : tm) (v : Z) :
  commutes F (fun t => set_sec t v) ->
  (t0 <- F (set_sec t v) ;; Some (set_sec t0 (k (tm_sec t0)))) =
  option_map (fun t' => set_sec t' (k v)) (F t).
Proof. intros C; rewrite C; now destruct (F t). Qed.

End ThenSet.

Ltac same_field :=
  match goal with
  | |- option_map (fun r => ?s r ?a) ?x = option_map (fun _ => _ _ ?b) ?x =>
      let H := fresh in
      assert (H : a = b) by carry_arith;
      exact (f_equal (fun v => option_map (fun r => s r v) x) H)
  | |- Some (?s ?t ?a) = Some (_ ?t ?b) =>
      let H := fresh in
      assert (H : a = b) by carry_arith;
      exact (f_equal (fun v => Some (s t v)) H)
  end.

(** The hour field after [tm_increment_hour], and the days it carries. *)
Lemma tm_increment_hour_carry (t : tm) (n : Z) :
  0 <= tm_hour t <= 23 -> 0 <= n ->
  tm_increment_hour t n =
  option_map (fun t' => set_hour t' (hour_left (tm_hour t) n))
             (tm_increment_day t ((tm_hour t + n) / 24)).
Proof.
  intros Hh Hn. unfold tm_increment_hour, increment_hour_else, hour_left,
    hours_in_day.
  destruct (Z.ltb_spec n 0); [lia|].
  rewrite Z.quot_div_nonneg by lia.
  rewrite !Z.geb_leb. cbv zeta.
  assert (E : n - n / 24 * 24 = n mod 24) by (rewrite Z.mod_eq; lia).
  rewrite !E.
  pose proof (fun v => tm_increment_day_commutes _ ((tm_hour t + n) / 24)
                         (setter_hour v)) as C.
  destruct (Z.leb_spec 24 n), (Z.leb_spec (24 - tm_hour t) n); cbn [orb];
    destruct (Z.leb_spec (24 - tm_hour t) (n mod 24));
    destruct (Z.ltb_spec (tm_hour t + n mod 24) 24);
    try (exfalso; carry_arith).
  - replace (n / 24 + 1) with ((tm_hour t + n) / 24) by carry_arith.
    rewrite (then_set_hour (fun t => tm_increment_day t _) (fun h => h + _))
      by apply C.
    same_field.
  - replace (n / 24) with ((tm_hour t + n) / 24) by carry_arith.
    rewrite <- (set_hour_same t) at 1.
    rewrite (then_set_hour (fun t => tm_increment_day t _) (fun h => h + _))
      by apply C.
    same_field.
  - replace (n / 24 + 1) with ((tm_hour t + n) / 24) by carry_arith.
    rewrite (then_set_hour (fun t => tm_increment_day t _) (fun h => h + _))
      by apply C.
    same_field.
  - replace ((tm_hour t + n) / 24) with 0 by carry_arith.
    rewrite tm_increment_day_zero; cbn [option_map].
    same_field.
Qed.

(** The minute and second setters pass through the hour mutators, the
    second setter through the minute mutators. *)

Ltac split_ifs :=
  repeat match goal with
    | |- context [if ?b then _ else _] => destruct b
    end.

Ltac through lemma :=
  match goal with
  | |- context [?f (?s1 (?s2 ?t ?v) ?x) ?k] =>
      change (s1 (s2 t v) x) with (s2 (s1 t x) v);
      rewrite (lemma (fun r => s2 r v) k) by constructor;
      destruct (f (s1 t x) k); reflexivity
  | |- context [?f (?s2 ?t ?v) ?k] =>
      rewrite (lemma (fun r => s2 r v) k) by constructor;
      destruct (f t k); reflexivity
  | |- _ => reflexivity
  end.

Lemma increment_hour_else_commutes (g : tm -> tm) (q : Z) :
  below_hour g -> commutes (fun t => increment_hour_else t q) g.
Proof.
  intros [v|v] t; unfold increment_hour_else; cbv zeta;
    [change (tm_hour (set_min t v)) with (tm_hour t)
    |change (tm_hour (set_sec t v)) with (tm_hour t)];
    split_ifs; through tm_increment_day_commutes.
Qed.

Lemma decrement_hour_else_commutes (g : tm -> tm) (q : Z) :
  below_hour g -> commutes (fun t => decrement_hour_else t q) g.
Proof.
  intros [v|v] t; unfold decrement_hour_else; cbv zeta;
    [change (tm_hour (set_min t v)) with (tm_hour t)
    |change (tm_hour (set_sec t v)) with (tm_hour t)];
    split_ifs; through tm_decrement_day_commutes.
Qed.

Lemma tm_increment_hour_commutes (g : tm -> tm) (q : Z) :
  below_hour g -> commutes (fun t => tm_increment_hour t q) g.
Proof.
  intros G t; unfold tm_increment_hour; destruct (q <? 0);
    [now apply decrement_hour_else_commutes
    |now apply increment_hour_else_commutes].
Qed.

Lemma tm_decrement_hour_commutes (g : tm -> tm) (q : Z) :
  below_hour g -> commutes (fun t => tm_decrement_hour t q) g.
Proof.
  intros G t; unfold tm_decrement_hour; destruct (q <? 0);
    [now apply increment_hour_else_commutes
    |now apply decrement_hour_else_commutes].
Qed.

Lemma increment_minute_else_commutes (g : tm -> tm) (q : Z) :
  below_minute g -> commutes (fun t => increment_minute_else t q) g.
Proof.
  intros [v] t; unfold increment_minute_else; cbv zeta.
  change (tm_min (set_sec t v)) with (tm_min t).
  split_ifs; through tm_increment_hour_commutes.
Qed.

Lemma decrement_minute_else_commutes (g : tm -> tm) (q : Z) :
  below_minute g -> commutes (fun t => decrement_minute_else t q) g.
Proof.
  intros [v] t; unfold decrement_minute_else; cbv zeta.
  change (tm_min (set_sec t v)) with (tm_min t).
  split_ifs; through tm_decrement_hour_commutes.
Qed.

Lemma tm_increment_minute_commutes (g : tm -> tm) (q : Z) :
  below_minute g -> commutes (fun t => tm_increment_minute t q) g.
Proof.
  intros G t; unfold tm_increment_minute; destruct (q <? 0);
    [now apply decrement_minute_else_commutes
    |now apply increment_minute_else_commutes].
Qed.

Lemma tm_increment_hour_zero (t : tm) :
  tm_hour t < 24 -> tm_increment_hour t 0 = Some t.
Proof.
  intros H; unfold tm_increment_hour, increment_hour_else, hours_in_day.
  cbn [Z.ltb Z.compare]. rewrite !Z.geb_leb.
  destruct (Z.leb_spec 24 0), (Z.leb_spec (24 - tm_hour t) 0); try lia.
  cbn [orb]. rewrite Z.add_0_r. now rewrite set_hour_same.
Qed.

Lemma tm_increment_minute_zero (t : tm) :
  tm_min t < 60 -> tm_increment_minute t 0 = Some t.
Proof.
  intros H; unfold tm_increment_minute, increment_minute_else, mins_in_hour.
  cbn [Z.ltb Z.compare]. rewrite !Z.geb_leb.
  destruct (Z.leb_spec 60 0), (Z.leb_spec (60 - tm_min t) 0); try lia.
  cbn [orb]. rewrite Z.add_0_r. now rewrite set_min_same.
Qed.

(** The minute field after [tm_increment_minute] is the remainder of the
    flat count, and the whole hours go to [tm_increment_hour]. *)
Lemma tm_increment_minute_carry (t : tm) (n : Z) :
  tm_hour t < 24 -> 0 <= tm_min t <= 59 -> 0 <= n ->
  tm_increment_minute t n =
  option_map (fun t' => set_min t' ((tm_min t + n) mod 60))
             (tm_increment_hour t ((tm_min t + n) / 60)).
Proof.
  intros Hh Hm Hn. unfold tm_increment_minute, increment_minute_else,
    mins_in_hour.
  destruct (Z.ltb_spec n 0); [lia|].
  rewrite Z.quot_div_nonneg by lia.
  rewrite !Z.geb_leb. cbv zeta.
  assert (E : n - n / 60 * 60 = n mod 60) by (rewrite Z.mod_eq; lia).
  rewrite !E.
  pose proof (fun v => tm_increment_hour_commutes _ ((tm_min t + n) / 60)
                         (below_hour_min v)) as C.
  destruct (Z.leb_spec 60 n), (Z.leb_spec (60 - tm_min t) n); cbn [orb];
    destruct (Z.leb_spec (60 - tm_min t) (n mod 60));
    try (exfalso; carry_arith).
  - replace (n / 60 + 1) with ((tm_min t + n) / 60) by carry_arith.
    rewrite (then_set_min (fun t => tm_increment_hour t _) (fun m => m + _))
      by apply C.
    same_field.
  - replace (n / 60) with ((tm_min t + n) / 60) by carry_arith.
    rewrite <- (set_min_same t) at 1.
    rewrite (then_set_min (fun t => tm_increment_hour t _) (fun m => m + _))
      by apply C.
    same_field.
  - replace (n / 60 + 1) with ((tm_min t + n) / 60) by carry_arith.
    rewrite (then_set_min (fun t => tm_increment_hour t _) (fun m => m + _))
      by apply C.
    same_field.
  - replace ((tm_min t + n) / 60) with 0 by carry_arith.
    rewrite tm_increment_hour_zero by assumption; cbn [option_map].
    same_field.
Qed.

(** The second field after [tm_increment_second] is the remainder of the
    flat count, and the whole minutes go to [tm_increment_minute]. *)
Lemma tm_increment_second_carry (t : tm) (n : Z) :
  tm_min t < 60 -> 0 <= tm_sec t <= 59 -> 0 <= n ->
  tm_increment_second t n =
  option_map (fun t' => set_sec t' ((tm_sec t + n) mod 60))
             (tm_increment_minute t ((tm_sec t + n) / 60)).
Proof.
  intros Hh Hm Hn. unfold tm_increment_second, increment_second_else,
    secs_in_min.
  destruct (Z.ltb_spec n 0); [lia|].
  rewrite Z.quot_div_nonneg by lia.
  rewrite !Z.geb_leb. cbv zeta.
  assert (E : n - n / 60 * 60 = n mod 60) by (rewrite Z.mod_eq; lia).
  rewrite !E.
  pose proof (fun v => tm_increment_minute_commutes _ ((tm_sec t + n) / 60)
                         (below_minute_sec v)) as C.
  destruct (Z.leb_spec 60 n), (Z.leb_spec (60 - tm_sec t) n); cbn [orb];
    destruct (Z.leb_spec (60 - tm_sec t) (n mod 60));
    try (exfalso; carry_arith).
  - replace (n / 60 + 1) with ((tm_sec t + n) / 60) by carry_arith.
    rewrite (then_set_sec (fun t => tm_increment_minute t _) (fun s => s + _))
      by apply C.
    same_field.
  - replace (n / 60) with ((tm_sec t + n) / 60) by carry_arith.
    rewrite <- (set_sec_same t) at 1.
    rewrite (then_set_sec (fun t => tm_increment_minute t _) (fun s => s + _))
      by apply C.
    same_field.
  - replace (n / 60 + 1) with ((tm_sec t + n) / 60) by carry_arith.
    rewrite (then_set_sec (fun t => tm_increment_minute t _) (fun s => s + _))
      by apply C.
    same_field.
  - replace ((tm_sec t + n) / 60) with 0 by carry_arith.
    rewrite tm_increment_minute_zero by assumption; cbn [option_map].
    same_field.
Qed.

(** ** Borrows

    The decrementers leave the remainder of the flat count in their own
    field and take the whole units from the next larger one. *)

Lemma tm_decrement_minute_commutes (g : tm -> tm) (q : Z) :
  below_minute g -> commutes (fun t => tm_decrement_minute t q) g.
Proof.
  intros G t; unfold tm_decrement_minute; destruct (q <? 0);
    [now apply increment_minute_else_commutes
    |now apply decrement_minute_else_commutes].
Qed.

Lemma tm_decrement_day_zero (t : tm) : tm_decrement_day t 0 = Some t.
Proof. reflexivity. Qed.

Lemma tm_decrement_hour_zero (t : tm) :
  0 <= tm_hour t -> tm_decrement_hour t 0 = Some t.
Proof.
  intros H; unfold tm_decrement_hour, decrement_hour_else, hours_in_day.
  cbn [Z.ltb Z.compare]. rewrite Z.geb_leb, Z.gtb_ltb.
  destruct (Z.leb_spec 24 0), (Z.ltb_spec (tm_hour t) 0); try lia.
  cbn [orb]. rewrite Z.sub_0_r. now rewrite set_hour_same.
Qed.

Lemma tm_decrement_minute_zero (t : tm) :
  0 <= tm_min t -> tm_decrement_minute t 0 = Some t.
Proof.
  intros H; unfold tm_decrement_minute, decrement_minute_else, mins_in_hour.
  cbn [Z.ltb Z.compare]. rewrite Z.geb_leb, Z.gtb_ltb.
  destruct (Z.leb_spec 60 0), (Z.ltb_spec (tm_min t) 0); try lia.
  cbn [orb]. rewrite Z.sub_0_r. now rewrite set_min_same.
Qed.

Lemma tm_decrement_hour_borrow (t : tm) (n : Z) :
  0 <= tm_hour t <= 23 -> 0 <= n ->
  tm_decrement_hour t n =
  option_map (fun t' => set_hour t' ((tm_hour t - n) mod 24))
             (tm_decrement_day t (- ((tm_hour t - n) / 24))).
Proof.
  intros Hh Hn. unfold tm_decrement_hour, decrement_hour_else, hours_in_day.
  destruct (Z.ltb_spec n 0); [lia|].
  rewrite Z.quot_div_nonneg by lia.
  rewrite Z.geb_leb, !Z.gtb_ltb. cbv zeta.
  assert (E : n - n / 24 * 24 = n mod 24) by (rewrite Z.mod_eq; lia).
  rewrite !E.
  pose proof (fun v => tm_decrement_day_commutes _ (- ((tm_hour t - n) / 24))
                         (setter_hour v)) as C.
  destruct (Z.leb_spec 24 n), (Z.ltb_spec (tm_hour t) n); cbn [orb];
    destruct (Z.ltb_spec (tm_hour t) (n mod 24));
    try (exfalso; carry_arith).
  - replace (n / 24 + 1) with (- ((tm_hour t - n) / 24)) by carry_arith.
    rewrite (then_set_hour (fun t => tm_decrement_day t _) (fun h => h - _))
      by apply C.
    same_field.
  - replace (n / 24) with (- ((tm_hour t - n) / 24)) by carry_arith.
    rewrite <- (set_hour_same t) at 1.
    rewrite (then_set_hour (fun t => tm_decrement_day t _) (fun h => h - _))
      by apply C.
    same_field.
  - replace (n / 24 + 1) with (- ((tm_hour t - n) / 24)) by carry_arith.
    rewrite (then_set_hour (fun t => tm_decrement_day t _) (fun h => h - _))
      by apply C.
    same_field.
  - replace (- ((tm_hour t - n) / 24)) with 0 by carry_arith.
    rewrite tm_decrement_day_zero; cbn [option_map].
    same_field.
Qed.

Lemma tm_decrement_minute_borrow (t : tm) (n : Z) :
  0 <= tm_hour t -> 0 <= tm_min t <= 59 -> 0 <= n ->
  tm_decrement_minute t n =
  option_map (fun t' => set_min t' ((tm_min t - n) mod 60))
             (tm_decrement_hour t (- ((tm_min t - n) / 60))).
Proof.
  intros Hh Hm Hn.
  unfold tm_decrement_minute, decrement_minute_else, mins_in_hour.
  destruct (Z.ltb_spec n 0); [lia|].
  rewrite Z.quot_div_nonneg by lia.
  rewrite Z.geb_leb, !Z.gtb_ltb. cbv zeta.
  assert (E : n - n / 60 * 60 = n mod 60) by (rewrite Z.mod_eq; lia).
  rewrite !E.
  pose proof (fun v => tm_decrement_hour_commutes _ (- ((tm_min t - n) / 60))
                         (below_hour_min v)) as C.
  destruct (Z.leb_spec 60 n), (Z.ltb_spec (tm_min t) n); cbn [orb];
    destruct (Z.ltb_spec (tm_min t) (n mod 60));
    try (exfalso; carry_arith).
  - replace (n / 60 + 1) with (- ((tm_min t - n) / 60)) by carry_arith.
    rewrite (then_set_min (fun t => tm_decrement_hour t _) (fun m => m - _))
      by apply C.
    same_field.
  - replace (n / 60) with (- ((tm_min t - n) / 60)) by carry_arith.
    rewrite <- (set_min_same t) at 1.
    rewrite (then_set_min (fun t => tm_decrement_hour t _) (fun m => m - _))
      by apply C.
    same_field.
  - replace (n / 60 + 1) with (- ((tm_min t - n) / 60)) by carry_arith.
    rewrite (then_set_min (fun t => tm_decrement_hour t _) (fun m => m - _))
      by apply C.
    same_field.
  - replace (- ((tm_min t - n) / 60)) with 0 by carry_arith.
    rewrite tm_decrement_hour_zero by assumption; cbn [option_map].
    same_field.
Qed.

Lemma tm_decrement_second_borrow (t : tm) (n : Z) :
  0 <= tm_min t -> 0 <= tm_sec t <= 59 -> 0 <= n ->
  tm_decrement_second t n =
  option_map (fun t' => set_sec t' ((tm_sec t - n) mod 60))
             (tm_decrement_minute t (- ((tm_sec t - n) / 60))).
Proof.
  intros Hh Hm Hn.
  unfold tm_decrement_second, decrement_second_else, secs_in_min.
  destruct (Z.ltb_spec n 0); [lia|].
  rewrite Z.quot_div_nonneg by lia.
  rewrite Z.geb_leb, !Z.gtb_ltb. cbv zeta.
  assert (E : n - n / 60 * 60 = n mod 60) by (rewrite Z.mod_eq; lia).
  rewrite !E.
  pose proof (fun v => tm_decrement_minute_commutes _ (- ((tm_sec t - n) / 60))
                         (below_minute_sec v)) as C.
  destruct (Z.leb_spec 60 n), (Z.ltb_spec (tm_sec t) n); cbn [orb];
    destruct (Z.ltb_spec (tm_sec t) (n mod 60));
    try (exfalso; carry_arith).
  - replace (n / 60 + 1) with (- ((tm_sec t - n) / 60)) by carry_arith.
    rewrite (then_set_sec (fun t => tm_decrement_minute t _) (fun s => s - _))
      by apply C.
    same_field.
  - replace (n / 60) with (- ((tm_sec t - n) / 60)) by carry_arith.
    rewrite <- (set_sec_same t) at 1.
    rewrite (then_set_sec (fun t => tm_decrement_minute t _) (fun s => s - _))
      by apply C.
    same_field.
  - replace (n / 60 + 1) with (- ((tm_sec t - n) / 60)) by carry_arith.
    rewrite (then_set_sec (fun t => tm_decrement_minute t _) (fun s => s - _))
      by apply C.
    same_field.
  - replace (- ((tm_sec t - n) / 60)) with 0 by carry_arith.
    rewrite tm_decrement_minute_zero by assumption; cbn [option_map].
    same_field.
Qed.

(** ** There and back, by days *)

Ltac open_record :=
  cbv [set_year set_mon set_mday set_hour set_min set_sec
       tm_sec tm_min tm_hour tm_mday tm_mon tm_year tm_isdst].

Ltac decide_tests :=
  rewrite ?Z.gtb_ltb;
  repeat match goal with
    | |- context [?a <? ?b] => destruct (Z.ltb_spec a b); try lia
    | |- context [?a =? ?b] => destruct (Z.eqb_spec a b); try lia
    end.

Lemma increment_day_step_undo (t : tm) :
  month_in_range t /\ walker_valid t ->
  exists t', increment_day_step t = Some t' /\
             (month_in_range t' /\ walker_valid t') /\
             decrement_day_step t' = Some t.
Proof.
  destruct t as [s mi h d m y dst].
  unfold month_in_range, walker_valid, walker_month_length; simpl.
  intros (Hm & Hd & Hy).
  unfold increment_day_step, decrement_day_step; simpl.
  split_month Hm; subst m; cbn in *;
    try destruct (is_leap_year y) eqn:L; cbn in *;
    decide_tests; cbn;
    eexists; (split; [reflexivity|]); cbn; rewrite ?L; cbn;
    decide_tests; cbn;
    (split; [lia|]); open_record; do 2 f_equal; lia.
Qed.

Lemma decrement_day_step_undo (t : tm) :
  month_in_range t /\ walker_valid t ->
  exists t', decrement_day_step t = Some t' /\
             (month_in_range t' /\ walker_valid t') /\
             increment_day_step t' = Some t.
Proof.
  destruct t as [s mi h d m y dst].
  unfold month_in_range, walker_valid, walker_month_length; simpl.
  intros (Hm & Hd & Hy).
  unfold increment_day_step, decrement_day_step; simpl.
  split_month Hm; subst m; cbn in *;
    try destruct (is_leap_year y) eqn:L; cbn in *;
    decide_tests; cbn;
    try destruct (is_leap_year y) eqn:L; cbn in *;
    eexists; (split; [reflexivity|]); cbn; rewrite ?L; cbn;
    decide_tests; cbn;
    (split; [lia|]); open_record; do 2 f_equal; lia.
Qed.

(** Between records of the walkers' own calendar, adding [n] days and
    taking [n] days away are inverse to each other, for every [n]. *)
Lemma day_round_trip (t : tm) (n : Z) :
  month_in_range t -> walker_valid t ->
  (t' <- tm_increment_day t n ;; tm_decrement_day t' n) = Some t /\
  (t' <- tm_decrement_day t n ;; tm_increment_day t' n) = Some t.
Proof.
  intros Hm Hv.
  pose proof (while_countdown_undo _ _ _ increment_day_step_undo) as F.
  pose proof (while_countdown_undo _ _ _ decrement_day_step_undo) as B.
  unfold tm_increment_day, tm_decrement_day,
    increment_day_loop, decrement_day_loop.
  destruct (n <? 0); split.
  - destruct (B (Z.to_nat (- n)) t (conj Hm Hv)) as (t' & -> & _ & R).
    exact R.
  - destruct (F (Z.to_nat (- n)) t (conj Hm Hv)) as (t' & -> & _ & R).
    exact R.
  - destruct (F (Z.to_nat n) t (conj Hm Hv)) as (t' & -> & _ & R).
    exact R.
  - destruct (B (Z.to_nat n) t (conj Hm Hv)) as (t' & -> & _ & R).
    exact R.
Qed.

Lemma tm_compare_same (t : tm) : tm_compare t t = 0.
Proof. unfold tm_compare; now rewrite !Z.eqb_refl. Qed.

(** ** Negative quantities

    Each mutator, given a negative quantity, is its opposite given the
    negated one. *)

Lemma hour_delegates (t : tm) (q : Z) :
  q < 0 ->
  tm_increment_hour t q = tm_decrement_hour t (- q) /\
  tm_decrement_hour t q = tm_increment_hour t (- q).
Proof.
  intros H; unfold tm_increment_hour, tm_decrement_hour.
  destruct (Z.ltb_spec q 0), (Z.ltb_spec (- q) 0); try lia; auto.
Qed.

Lemma minute_delegates (t : tm) (q : Z) :
  q < 0 ->
  tm_increment_minute t q = tm_decrement_minute t (- q) /\
  tm_decrement_minute t q = tm_increment_minute t (- q).
Proof.
  intros H; unfold tm_increment_minute, tm_decrement_minute.
  destruct (Z.ltb_spec q 0), (Z.ltb_spec (- q) 0); try lia; auto.
Qed.

Lemma second_delegates (t : tm) (q : Z) :
  q < 0 ->
  tm_increment_second t q = tm_decrement_second t (- q) /\
  tm_decrement_second t q = tm_increment_second t (- q).
Proof.
  intros H; unfold tm_increment_second, tm_decrement_second.
  destruct (Z.ltb_spec q 0), (Z.ltb_spec (- q) 0); try lia; auto.
Qed.

(** ** Where the code departs from its specification *)

(** C3 (the code departs from it). 2000 is a leap year and the validator
    accepts its February 29, yet a day added to February 28, 2000 (year
    field 100) gives March 1 and a day taken from March 1, 2000 gives
    February 28; 1900 is not a leap year, yet a day added to February 28,
    1900 (year field 0) gives a February 29 that the validator rejects. *)
Theorem february_walk_ignores_1900_offset :
  is_leap_year (100 + 1900) = true /\
  validate_date (civil 100 1 29 0 0 0) = true /\
  tm_increment_day (civil 100 1 28 0 0 0) 1 = Some (civil 100 2 1 0 0 0) /\
  tm_decrement_day (civil 100 2 1 0 0 0) 1 = Some (civil 100 1 28 0 0 0) /\
  is_leap_year (0 + 1900) = false /\
  tm_increment_day (civil 0 1 28 0 0 0) 1 = Some (civil 0 1 29 0 0 0) /\
  validate_date (civil 0 1 29 0 0 0) = false.
Proof. repeat split. Qed.

(** C2 (the code departs from it). Ninety minutes added to 23:30:00 of
    January 1, 1970 advance the day by one but leave the clock at
    02:00:00, not 01:00:00; three hours added to 23:00:00 leave the hour
    field at 4, not (23 + 3) mod 24 = 2. *)
Theorem increment_hour_counts_remainder_twice :
  tm_increment_minute (civil 70 0 1 23 30 0) 90 = Some (civil 70 0 2 2 0 0) /\
  tm_increment_hour (civil 70 0 1 23 0 0) 3 = Some (civil 70 0 2 4 0 0) /\
  (23 + 3) mod 24 = 2.
Proof. repeat split. Qed.

(** C1 (the code departs from it). Valid records whose round trip does
    not come back: three hours from 23:00:00 on January 1, 1970 (hour
    unit), 150 minutes and 9000 seconds from the same instant (minute and
    second units, through the hour carry), one day from February 29,
    2000 and one day from December 31, 1900 (day unit). *)
Theorem round_trip_fails :
  validate_date (civil 70 0 1 23 0 0) = true /\
  (t <- tm_increment_hour (civil 70 0 1 23 0 0) 3 ;; tm_decrement_hour t 3)
    = Some (civil 70 0 2 1 0 0) /\
  (t <- tm_increment_minute (civil 70 0 1 23 0 0) 150 ;;
   tm_decrement_minute t 150) = Some (civil 70 0 2 0 0 0) /\
  (t <- tm_increment_second (civil 70 0 1 23 0 0) 9000 ;;
   tm_decrement_second t 9000) = Some (civil 70 0 2 0 0 0) /\
  tm_compare (civil 70 0 2 1 0 0) (civil 70 0 1 23 0 0) = 1 /\
  tm_compare (civil 70 0 2 0 0 0) (civil 70 0 1 23 0 0) = 1 /\
  validate_date (civil 100 1 29 0 0 0) = true /\
  (t <- tm_increment_day (civil 100 1 29 0 0 0) 1 ;; tm_decrement_day t 1)
    = Some (civil 100 1 28 0 0 0) /\
  tm_compare (civil 100 1 28 0 0 0) (civil 100 1 29 0 0 0) = -1 /\
  validate_date (civil 0 11 31 0 0 0) = true /\
  (t <- tm_increment_day (civil 0 11 31 0 0 0) 1 ;; tm_decrement_day t 1)
    = Some (civil (-1) 11 31 0 0 0) /\
  tm_compare (civil (-1) 11 31 0 0 0) (civil 0 11 31 0 0 0) = -1.
Proof. repeat split. Qed.

(** * Further properties of the code *)

(** ** Leap years, as the walkers and the validator ask *)

(** X2. The oracle gives the walkers (asked about the year field) and
    the validator (asked about the year field plus 1900) the same answer
    exactly when neither the year field nor the year field plus 1900 is
    a multiple of 400. *)
Theorem is_leap_year_field_or_calendar (y : Z) :
  is_leap_year y = is_leap_year (y + 1900) <->
  ~ (400 | y) /\ ~ (400 | y + 1900).
Proof.
  rewrite <- !Z.rem_divide by discriminate.
  unfold is_leap_year.
  destruct (Z.eqb_spec (Z.rem y 4) 0), (Z.eqb_spec (Z.rem y 100) 0),
    (Z.eqb_spec (Z.rem y 400) 0), (Z.eqb_spec (Z.rem (y + 1900) 4) 0),
    (Z.eqb_spec (Z.rem (y + 1900) 100) 0),
    (Z.eqb_spec (Z.rem (y + 1900) 400) 0); simpl;
    try (exfalso; carry_arith);
    split; try discriminate; try (intros _; split; assumption);
    try reflexivity; intros [? ?]; contradiction.
Qed.

(** ** The comparator as an order *)

Lemma lex_compare_swap (xs ys : list Z) :
  lex_compare ys xs = CompOpp (lex_compare xs ys).
Proof.
  revert ys; induction xs as [|x xs IH]; intros [|y ys]; simpl; auto.
  rewrite (Z.compare_antisym x y). destruct (x ?= y); simpl; auto.
Qed.

Lemma lex_compare_eq (xs ys : list Z) :
  length xs = length ys -> lex_compare xs ys = Eq <-> xs = ys.
Proof.
  revert ys; induction xs as [|x xs IH]; intros [|y ys]; simpl;
    try discriminate; [tauto|].
  intros [= L]. destruct (Z.compare_spec x y) as [->|H|H].
  - rewrite (IH _ L). split; [now intros ->|now intros [= ->]].
  - split; [discriminate|intros [= -> _]; lia].
  - split; [discriminate|intros [= -> _]; lia].
Qed.

Lemma lex_compare_lt_trans (xs ys zs : list Z) :
  lex_compare xs ys = Lt -> lex_compare ys zs = Lt -> lex_compare xs zs = Lt.
Proof.
  revert ys zs; induction xs as [|x xs IH]; intros [|y ys] [|z zs]; simpl;
    try discriminate.
  destruct (Z.compare_spec x y), (Z.compare_spec y z), (Z.compare_spec x z);
    try discriminate; try lia; auto.
  apply IH.
Qed.

Lemma tm_compare_swap (a b : tm) : tm_compare b a = - tm_compare a b.
Proof.
  rewrite !tm_compare_lexicographic. unfold civil_order.
  rewrite (lex_compare_swap (civil_fields a)).
  now destruct (lex_compare (civil_fields a) (civil_fields b)).
Qed.

Lemma tm_compare_zero (a b : tm) :
  tm_compare a b = 0 <-> civil_fields a = civil_fields b.
Proof.
  rewrite tm_compare_lexicographic. unfold civil_order.
  rewrite <- (lex_compare_eq (civil_fields a) (civil_fields b)) by reflexivity.
  destruct (lex_compare (civil_fields a) (civil_fields b)); simpl;
    split; congruence.
Qed.

Lemma tm_compare_range (a b : tm) :
  tm_compare a b = -1 \/ tm_compare a b = 0 \/ tm_compare a b = 1.
Proof.
  rewrite tm_compare_lexicographic.
  destruct (civil_order a b); simpl; auto.
Qed.

(** X3. [tm_compare] answers 0 exactly when the two records have the
    same year, month, day, hour, minute and second (the DST field is not
    looked at); swapping the arguments negates the answer; and "earlier
    than" is transitive. *)
Theorem tm_compare_is_an_order :
  (forall a b, tm_compare a b = 0 <-> civil_fields a = civil_fields b) /\
  (forall a b, tm_compare b a = - tm_compare a b) /\
  (forall a b c,
     tm_compare a b = -1 -> tm_compare b c = -1 -> tm_compare a c = -1).
Proof.
  split; [exact tm_compare_zero|]. split; [exact tm_compare_swap|].
  intros a b c. rewrite !tm_compare_lexicographic. unfold civil_order.
  intros Hab Hbc.
  rewrite (lex_compare_lt_trans (civil_fields a) (civil_fields b)); auto.
  - destruct (lex_compare (civil_fields a) (civil_fields b));
      simpl in Hab; congruence.
  - destruct (lex_compare (civil_fields b) (civil_fields c));
      simpl in Hbc; congruence.
Qed.

Lemma tm_compare_is_an_order_witness :
  tm_compare (civil 99 11 31 23 59 59) (mk_tm 0 0 0 1 0 100 1) = -1 /\
  tm_compare (mk_tm 0 0 0 1 0 100 1) (civil 100 0 1 0 0 1) = -1 /\
  tm_compare (civil 99 11 31 23 59 59) (civil 100 0 1 0 0 1) = -1.
Proof.
  assert (H1 : tm_compare (civil 99 11 31 23 59 59) (mk_tm 0 0 0 1 0 100 1)
               = -1) by reflexivity.
  assert (H2 : tm_compare (mk_tm 0 0 0 1 0 100 1) (civil 100 0 1 0 0 1)
               = -1) by reflexivity.
  split; [exact H1|]. split; [exact H2|].
  exact (proj2 (proj2 tm_compare_is_an_order) _ _ _ H1 H2).
Defined.

(** ** The intraday difference *)

Lemma raw_secs_diff_swap (a b : tm) : raw_secs_diff b a = - raw_secs_diff a b.
Proof. unfold raw_secs_diff; lia. Qed.

Lemma tm_intraday_secs_diff_raw (a b : tm) :
  tm_intraday_secs_diff a b =
  if tm_compare a b =? 0 then 0
  else if (tm_compare a b =? 1) && (0 <? raw_secs_diff a b)
       then raw_secs_diff a b - 86400
       else if (tm_compare a b =? -1) && (raw_secs_diff a b <? 0)
            then raw_secs_diff a b + 86400
            else raw_secs_diff a b.
Proof.
  unfold tm_intraday_secs_diff, raw_secs_diff, secs_in_hour, secs_in_min,
    secs_in_day.
  now rewrite Z.gtb_ltb.
Qed.

(** X4. Swapping the two records negates [tm_intraday_secs_diff],
    whatever the records. *)
Theorem tm_intraday_secs_diff_swap (a b : tm) :
  tm_intraday_secs_diff b a = - tm_intraday_secs_diff a b.
Proof.
  rewrite !tm_intraday_secs_diff_raw, tm_compare_swap, raw_secs_diff_swap.
  destruct (tm_compare_range a b) as [E|[E|E]]; rewrite E; simpl;
    repeat match goal with
      | |- context [?x <? ?y] => destruct (Z.ltb_spec x y)
      end; simpl; lia.
Qed.

Lemma clock_secs_inj (a b : tm) :
  valid_clock a -> valid_clock b ->
  raw_secs_diff a b = 0 -> same_wall_clock a b.
Proof.
  unfold valid_clock, raw_secs_diff, same_wall_clock.
  intros (Ha & Hb & Hc) (Ha' & Hb' & Hc') H. lia.
Qed.

Lemma raw_zero_diff_zero (a b : tm) :
  raw_secs_diff a b = 0 -> tm_intraday_secs_diff a b = 0.
Proof.
  intros H; rewrite tm_intraday_secs_diff_raw, H; simpl.
  destruct (tm_compare a b =? 0); [reflexivity|].
  now rewrite !andb_false_r.
Qed.

Lemma tm_compare_zero_raw (a b : tm) :
  tm_compare a b = 0 -> raw_secs_diff a b = 0.
Proof.
  rewrite tm_compare_zero. unfold civil_fields, raw_secs_diff.
  intros [= _ _ _ -> -> ->]. lia.
Qed.

(** The difference is the raw clock difference up to one day. *)
Lemma tm_intraday_secs_diff_congruent (a b : tm) :
  exists j : Z,
    (-1 <= j <= 1) /\
    tm_intraday_secs_diff a b = raw_secs_diff a b + 86400 * j.
Proof.
  rewrite tm_intraday_secs_diff_raw.
  destruct (Z.eqb_spec (tm_compare a b) 0) as [E|E].
  - exists 0. rewrite (tm_compare_zero_raw _ _ E). lia.
  - destruct ((tm_compare a b =? 1) && (0 <? raw_secs_diff a b));
      [exists (-1); lia|].
    destruct ((tm_compare a b =? -1) && (raw_secs_diff a b <? 0));
      [exists 1; lia|exists 0; lia].
Qed.

Lemma intraday_zero_same_clock (a b : tm) :
  valid_clock a -> valid_clock b ->
  tm_intraday_secs_diff a b = 0 -> same_wall_clock a b.
Proof.
  intros Va Vb H. apply clock_secs_inj; auto.
  destruct (tm_intraday_secs_diff_congruent a b) as (j & Hj & E).
  assert (R : -86400 < raw_secs_diff a b < 86400).
  { unfold valid_clock, raw_secs_diff in *. lia. }
  lia.
Qed.

(** X5. Between records whose clock fields are in range the difference
    lies strictly between -86400 and 86400, is not negative when the
    first record is the earlier one and not positive when it is the later
    one, and is 0 exactly when hour, minute and second agree: also
    between records of different days. *)
Theorem tm_intraday_secs_diff_range (a b : tm) :
  valid_clock a -> valid_clock b ->
  -86400 < tm_intraday_secs_diff a b < 86400 /\
  (tm_compare a b = -1 -> 0 <= tm_intraday_secs_diff a b) /\
  (tm_compare a b = 1 -> tm_intraday_secs_diff a b <= 0) /\
  (tm_intraday_secs_diff a b = 0 <-> same_wall_clock a b).
Proof.
  intros Va Vb.
  assert (R : -86400 < raw_secs_diff a b < 86400).
  { unfold valid_clock, raw_secs_diff in *. lia. }
  assert (Z0 : tm_compare a b = 0 -> raw_secs_diff a b = 0).
  { rewrite tm_compare_zero. unfold civil_fields, raw_secs_diff.
    intros [= _ _ _ -> -> ->]. lia. }
  assert (W : same_wall_clock a b -> raw_secs_diff a b = 0).
  { unfold same_wall_clock, raw_secs_diff. intros (-> & -> & ->). lia. }
  pose proof (clock_secs_inj a b Va Vb) as I.
  rewrite tm_intraday_secs_diff_raw.
  destruct (tm_compare_range a b) as [E|[E|E]]; rewrite E; simpl;
    repeat match goal with
      | |- context [?x <? ?y] => destruct (Z.ltb_spec x y)
      end; simpl;
    (split; [lia|]); (split; [lia|]); (split; [lia|]);
    (split; [intros; apply I; lia | intros S; specialize (W S); lia]).
Qed.

Lemma tm_intraday_secs_diff_range_witness :
  valid_clock (civil 70 0 1 23 0 0) /\ valid_clock (civil 70 0 2 23 0 0) /\
  tm_compare (civil 70 0 1 23 0 0) (civil 70 0 2 23 0 0) = -1 /\
  tm_intraday_secs_diff (civil 70 0 1 23 0 0) (civil 70 0 2 23 0 0) = 0.
Proof.
  assert (Va : valid_clock (civil 70 0 1 23 0 0))
    by (unfold valid_clock; simpl; lia).
  assert (Vb : valid_clock (civil 70 0 2 23 0 0))
    by (unfold valid_clock; simpl; lia).
  split; [exact Va|]. split; [exact Vb|]. split; [reflexivity|].
  apply (proj2 (proj2 (proj2 (tm_intraday_secs_diff_range _ _ Va Vb)))).
  unfold same_wall_clock; simpl; auto.
Defined.

(** ** Checking a timestamp *)

(** X6. [check_utc_timestamp] ends the process when the timestamp cannot
    be decomposed.  Otherwise its flag says whether the decomposition and
    the expected record agree on year, month, day, hour, minute and
    second, and the difference it stores is the one
    [get_utc_timestamp_sec_diff] computes for the same arguments, which
    is 0 when the flag is set. *)
Theorem check_utc_timestamp_reports
    (gmtime : time_t -> option tm) (check_time : time_t) (check_tm : tm) :
  (gmtime check_time = None ->
   check_utc_timestamp gmtime check_time check_tm = None) /\
  (forall c, gmtime check_time = Some c ->
     exists agrees d,
       check_utc_timestamp gmtime check_time check_tm = Some (agrees, d) /\
       (agrees = true <-> civil_fields check_tm = civil_fields c) /\
       get_utc_timestamp_sec_diff gmtime check_time check_tm = Some d /\
       (agrees = true -> d = 0)).
Proof.
  unfold check_utc_timestamp, get_utc_timestamp_sec_diff. split.
  - intros ->. reflexivity.
  - intros c ->. simpl.
    destruct (Z.eqb_spec (tm_compare check_tm c) 0) as [E|E]; simpl.
    + exists true, 0. rewrite <- tm_compare_zero. repeat split; auto.
      unfold tm_intraday_secs_diff. now rewrite E.
    + exists false, (tm_intraday_secs_diff check_tm c).
      rewrite <- tm_compare_zero.
      repeat split; auto; try discriminate; try contradiction.
Qed.

Lemma check_utc_timestamp_reports_witness :
  exists agrees d,
    check_utc_timestamp posix_gmtime 951782400 (civil 100 1 28 0 0 0)
      = Some (agrees, d) /\
    (agrees = true <->
     civil_fields (civil 100 1 28 0 0 0) = civil_fields (civil 100 1 29 0 0 0)) /\
    get_utc_timestamp_sec_diff posix_gmtime 951782400 (civil 100 1 28 0 0 0)
      = Some d /\
    (agrees = true -> d = 0).
Proof.
  exact (proj2 (check_utc_timestamp_reports posix_gmtime 951782400
                  (civil 100 1 28 0 0 0))
           (civil 100 1 29 0 0 0) eq_refl).
Defined.

(** ** What the reconciler returns *)

(** X7. A timestamp returned by [get_utc_timestamp] decomposes, and
    [check_utc_timestamp] stores difference 0 for it against the working
    copy; when both clocks are in range, the decomposition shows the hour,
    minute and second of the copy.  The flag of [check_utc_timestamp] is
    not promised: the date is not compared by the reconciler. *)
Theorem get_utc_timestamp_result_checks
    (mktime : tm -> time_t * tm) (gmtime : time_t -> option tm)
    (utc_tm : tm) (ts : time_t) :
  get_utc_timestamp mktime gmtime utc_tm = Some ts ->
  exists c agrees,
    gmtime ts = Some c /\
    check_utc_timestamp gmtime ts (copy_tm mktime utc_tm) = Some (agrees, 0) /\
    (valid_clock (copy_tm mktime utc_tm) -> valid_clock c ->
     same_wall_clock (copy_tm mktime utc_tm) c).
Proof.
  intros H. destruct (result_agrees _ _ _ _ H) as [D _].
  unfold diff_at, get_utc_timestamp_sec_diff in D.
  destruct (gmtime ts) as [c|] eqn:G; simpl in D; [|discriminate].
  injection D as D.
  exists c, (tm_compare (copy_tm mktime utc_tm) c =? 0).
  split; [reflexivity|]. split.
  - unfold check_utc_timestamp. rewrite G; simpl.
    destruct (tm_compare (copy_tm mktime utc_tm) c =? 0); simpl;
      [reflexivity|now rewrite D].
  - intros Va Vc. now apply intraday_zero_same_clock.
Qed.

Lemma get_utc_timestamp_result_checks_witness :
  exists c agrees,
    posix_gmtime 951782400 = Some c /\
    check_utc_timestamp posix_gmtime 951782400
      (copy_tm (posix_mktime 3600) (civil 100 1 29 0 0 0)) = Some (agrees, 0) /\
    (valid_clock (copy_tm (posix_mktime 3600) (civil 100 1 29 0 0 0)) ->
     valid_clock c ->
     same_wall_clock (copy_tm (posix_mktime 3600) (civil 100 1 29 0 0 0)) c).
Proof.
  exact (get_utc_timestamp_result_checks (posix_mktime 3600) posix_gmtime
           (civil 100 1 29 0 0 0) 951782400 eq_refl).
Defined.

Lemma raw_secs_diff_clock (a b : tm) :
  raw_secs_diff a b = clock_secs b - clock_secs a.
Proof. unfold raw_secs_diff, clock_secs; lia. Qed.

Lemma valid_clock_secs (t : tm) : valid_clock t -> 0 <= clock_secs t < 86400.
Proof. unfold valid_clock, clock_secs; lia. Qed.

(** X8. Where timestamps decompose without leap seconds ([u] units later
    the clock reads one second more, modulo a day) and the calibrated
    second is [u], [get_utc_timestamp] never ends the process once the
    forward conversion has succeeded, and never needs its neighbour
    probes: it returns the first approximation or the adjusted timestamp,
    and the decomposition of what it returns shows the hour, minute and
    second of the working copy. *)
Theorem get_utc_timestamp_without_leap_seconds
    (mktime : tm -> time_t * tm) (gmtime : time_t -> option tm)
    (utc_tm : tm) (u : Z) :
  ticks_seconds gmtime u ->
  get_sec_diff mktime = Some u ->
  approx mktime utc_tm <> -1 ->
  valid_clock (copy_tm mktime utc_tm) ->
  exists ts c,
    get_utc_timestamp mktime gmtime utc_tm = Some ts /\
    gmtime ts = Some c /\
    same_wall_clock (copy_tm mktime utc_tm) c /\
    (ts = approx mktime utc_tm \/
     exists d, diff_at mktime gmtime utc_tm (approx mktime utc_tm) = Some d /\
               d <> 0 /\ ts = adjusted mktime utc_tm u d).
Proof.
  intros T U N V.
  set (copy := copy_tm mktime utc_tm) in *.
  set (ts0 := approx mktime utc_tm) in *.
  destruct (T ts0 0) as (c0 & _ & G0 & _ & V0 & _).
  set (d := tm_intraday_secs_diff copy c0).
  assert (D0 : diff_at mktime gmtime utc_tm ts0 = Some d).
  { unfold diff_at, get_utc_timestamp_sec_diff. fold copy. now rewrite G0. }
  destruct (Z.eq_dec d 0) as [Z|NZ].
  - exists ts0, c0. split; [|split; [exact G0|split; [|now left]]].
    + apply result_exact; [exact N|]. fold ts0. now rewrite D0, Z.
    + now apply intraday_zero_same_clock.
  - destruct (T ts0 (- d)) as (c0' & c1 & G0' & G1 & _ & C1).
    rewrite G0 in G0'. injection G0' as <-.
    replace (ts0 + u * - d) with (adjusted mktime utc_tm u d) in G1
      by (unfold adjusted; fold ts0; lia).
    destruct (T (adjusted mktime utc_tm u d) 0) as (c1' & _ & G1' & _ & V1 & _).
    rewrite G1 in G1'. injection G1' as <-.
    assert (R : raw_secs_diff copy c1 = 0).
    { rewrite raw_secs_diff_clock, C1.
      destruct (tm_intraday_secs_diff_congruent copy c0) as (j & Hj & E).
      fold d in E. rewrite raw_secs_diff_clock in E.
      pose proof (valid_clock_secs _ V).
      replace (clock_secs c0 + - d) with (clock_secs copy + 86400 * (- j))
        by lia.
      carry_arith. }
    exists (adjusted mktime utc_tm u d), c1.
    split; [|split; [exact G1|split; [now apply clock_secs_inj|right; eauto]]].
    apply (proj1 (result_adjusted mktime gmtime utc_tm d u N D0 NZ U)).
    unfold diff_at, get_utc_timestamp_sec_diff. fold copy. rewrite G1; simpl.
    now rewrite raw_zero_diff_zero.
Qed.

Lemma posix_gmtime_ticks_seconds : ticks_seconds posix_gmtime 1.
Proof.
  intros t k. exists (decompose t), (decompose (t + 1 * k)).
  split; [reflexivity|]. split; [reflexivity|].
  unfold valid_clock, clock_secs, decompose.
  destruct (civil_from_days (t / 86400)) as [[y m] d].
  destruct (civil_from_days ((t + 1 * k) / 86400)) as [[y' m'] d'].
  cbn [tm_hour tm_min tm_sec].
  split; [carry_arith|carry_arith].
Qed.

Lemma get_utc_timestamp_without_leap_seconds_witness :
  exists ts c,
    get_utc_timestamp (posix_mktime 3600) posix_gmtime (civil 100 1 29 0 0 0)
      = Some ts /\
    posix_gmtime ts = Some c /\
    same_wall_clock (copy_tm (posix_mktime 3600) (civil 100 1 29 0 0 0)) c /\
    (ts = approx (posix_mktime 3600) (civil 100 1 29 0 0 0) \/
     exists d,
       diff_at (posix_mktime 3600) posix_gmtime (civil 100 1 29 0 0 0)
         (approx (posix_mktime 3600) (civil 100 1 29 0 0 0)) = Some d /\
       d <> 0 /\
       ts = adjusted (posix_mktime 3600) (civil 100 1 29 0 0 0) 1 d).
Proof.
  apply (get_utc_timestamp_without_leap_seconds (posix_mktime 3600)
           posix_gmtime (civil 100 1 29 0 0 0) 1).
  - exact posix_gmtime_ticks_seconds.
  - reflexivity.
  - vm_compute; discriminate.
  - unfold valid_clock; vm_compute; repeat split; discriminate.
Defined.

(** ** Days: the table behind the switches *)

(** X9. With the month in 0..11, one day added by [tm_increment_day]
    is the next day of the same month while that day exists in the
    month (lengths 31/30/28, February 29 when the oracle, asked about the
    year field, says leap), and otherwise the first day of the next
    month, the year field moving on after December (from -1 to 1).  This
    holds from any day number, also one beyond the month's length. *)
Theorem tm_increment_day_by_table (t : tm) :
  month_in_range t ->
  tm_increment_day t 1 =
  Some (if tm_mday t + 1 >? walker_month_length t
        then next_month_start t
        else set_mday t (tm_mday t + 1)).
Proof.
  rewrite increment_day_once.
  destruct t as [s mi h d m y dst].
  unfold month_in_range, walker_month_length, next_month_start,
    increment_day_step; simpl.
  intros Hm; split_month Hm; subst m; cbn;
    try destruct (is_leap_year y); cbn; rewrite ?Z.gtb_ltb;
    repeat match goal with
      | |- context [?a <? ?b] => destruct (Z.ltb_spec a b); try lia
      end; cbn; try reflexivity;
    destruct (y =? -1); reflexivity.
Qed.

Lemma tm_increment_day_by_table_witness :
  month_in_range (civil 124 1 29 0 0 0) /\
  tm_increment_day (civil 124 1 29 0 0 0) 1 =
  Some (if tm_mday (civil 124 1 29 0 0 0) + 1
           >? walker_month_length (civil 124 1 29 0 0 0)
        then next_month_start (civil 124 1 29 0 0 0)
        else set_mday (civil 124 1 29 0 0 0)
               (tm_mday (civil 124 1 29 0 0 0) + 1)).
Proof.
  assert (H : month_in_range (civil 124 1 29 0 0 0))
    by (unfold month_in_range; simpl; lia).
  split; [exact H|].
  exact (tm_increment_day_by_table (civil 124 1 29 0 0 0) H).
Defined.

(** X10. With the month in 0..11, one day taken by [tm_decrement_day]
    is the previous day of the same month when the day number is above
    1, and otherwise the last day of the previous month in the walkers'
    calendar, the year field moving back before January (from 1 to
    -1). *)
Theorem tm_decrement_day_by_table (t : tm) :
  month_in_range t ->
  tm_decrement_day t 1 =
  Some (if tm_mday t >? 1
        then set_mday t (tm_mday t - 1)
        else previous_month_end t).
Proof.
  rewrite decrement_day_once.
  destruct t as [s mi h d m y dst].
  unfold month_in_range, walker_month_length, previous_month_end,
    decrement_day_step; simpl.
  intros Hm. destruct (d >? 1); [reflexivity|].
  split_month Hm; subst m; cbn; try reflexivity;
    [destruct (y =? 1); reflexivity | destruct (is_leap_year y); reflexivity].
Qed.

Lemma tm_decrement_day_by_table_witness :
  month_in_range (civil 124 2 1 0 0 0) /\
  tm_decrement_day (civil 124 2 1 0 0 0) 1 =
  Some (if tm_mday (civil 124 2 1 0 0 0) >? 1
        then set_mday (civil 124 2 1 0 0 0) (tm_mday (civil 124 2 1 0 0 0) - 1)
        else previous_month_end (civil 124 2 1 0 0 0)).
Proof.
  assert (H : month_in_range (civil 124 2 1 0 0 0))
    by (unfold month_in_range; simpl; lia).
  split; [exact H|].
  exact (tm_decrement_day_by_table (civil 124 2 1 0 0 0) H).
Defined.

(** ** Days: a month out of range *)

Lemma increment_day_step_default (t : tm) :
  ~ month_in_range t -> increment_day_step t = None.
Proof.
  intros H. apply month_case_default in H.
  unfold increment_day_step. cbn [tm_mon set_mday]. now rewrite H.
Qed.

Lemma decrement_day_step_default (t : tm) :
  ~ month_in_range t ->
  decrement_day_step t =
  if 1 <? tm_mday t then Some (set_mday t (tm_mday t - 1)) else None.
Proof.
  intros H. apply month_case_default in H.
  unfold decrement_day_step. rewrite Z.gtb_ltb, H. reflexivity.
Qed.

Lemma set_mday_same (t : tm) : set_mday t (tm_mday t) = t.
Proof. now destruct t. Qed.

Lemma decrement_day_loop_default (k : nat) (t : tm) :
  ~ month_in_range t ->
  while_countdown decrement_day_step (S k) t =
  if Z.of_nat (S k) <? tm_mday t
  then Some (set_mday t (tm_mday t - Z.of_nat (S k)))
  else None.
Proof.
  revert t; induction k as [|k IH]; intros t H.
  - simpl. rewrite (decrement_day_step_default t H).
    now destruct (1 <? tm_mday t).
  - change (while_countdown decrement_day_step (S (S k)) t)
      with (t1 <- decrement_day_step t ;;
            while_countdown decrement_day_step (S k) t1).
    rewrite (decrement_day_step_default t H).
    destruct (Z.ltb_spec 1 (tm_mday t)) as [L|L].
    + cbn [bind]. rewrite IH by exact H.
      destruct t as [s mi h d m y dst]; cbn [tm_mday set_mday] in *.
      destruct (Z.ltb_spec (Z.of_nat (S k)) (d - 1)),
        (Z.ltb_spec (Z.of_nat (S (S k))) d); try lia; [|reflexivity].
      open_record. do 2 f_equal. lia.
    + cbn [bind].
      destruct (Z.ltb_spec (Z.of_nat (S (S k))) (tm_mday t));
        [lia|reflexivity].
Qed.

(** X11. From a record whose month is outside 0..11, [tm_increment_day]
    with a quantity of at least 1 runs into its [assert(false)]; so does
    [tm_decrement_day] unless the quantity is below the day number, in
    which case it only lowers the day number by the quantity. *)
Theorem day_walkers_with_month_out_of_range (t : tm) (n : Z) :
  ~ month_in_range t -> 1 <= n ->
  tm_increment_day t n = None /\
  tm_decrement_day t n =
  (if n <? tm_mday t then Some (set_mday t (tm_mday t - n)) else None).
Proof.
  intros H Hn. unfold tm_increment_day, tm_decrement_day,
    increment_day_loop, decrement_day_loop.
  destruct (Z.ltb_spec n 0); [lia|].
  destruct (Z.to_nat n) as [|k] eqn:E; [lia|]. split.
  - simpl. now rewrite (increment_day_step_default t H).
  - rewrite (decrement_day_loop_default k t H), <- E, Z2Nat.id by lia.
    reflexivity.
Qed.

Lemma day_walkers_with_month_out_of_range_witness :
  ~ month_in_range (civil 124 12 5 0 0 0) /\
  tm_increment_day (civil 124 12 5 0 0 0) 1 = None /\
  tm_decrement_day (civil 124 12 5 0 0 0) 4 = Some (civil 124 12 1 0 0 0) /\
  tm_decrement_day (civil 124 12 5 0 0 0) 5 = None.
Proof.
  assert (H : ~ month_in_range (civil 124 12 5 0 0 0))
    by (unfold month_in_range; simpl; lia).
  split; [exact H|]. split; [|split].
  - exact (proj1 (day_walkers_with_month_out_of_range _ 1 H ltac:(lia))).
  - exact (proj2 (day_walkers_with_month_out_of_range _ 4 H ltac:(lia))).
  - exact (proj2 (day_walkers_with_month_out_of_range _ 5 H ltac:(lia))).
Defined.

(** ** Days: adding up *)

Lemma while_countdown_app (body : tm -> option tm) (a b : nat) (t : tm) :
  while_countdown body (a + b) t =
  (t1 <- while_countdown body a t ;; while_countdown body b t1).
Proof.
  revert t; induction a as [|a IH]; intros t; simpl; [reflexivity|].
  destruct (body t) as [t1|]; simpl; [apply IH|reflexivity].
Qed.

(** X12. Days add up: for quantities [a] and [b] that are not negative,
    [a] days and then [b] days, by [tm_increment_day] or by
    [tm_decrement_day], give what [a + b] days give in one call, the
    abort included. *)
Theorem day_walkers_add_up (t : tm) (a b : Z) :
  0 <= a -> 0 <= b ->
  (t1 <- tm_increment_day t a ;; tm_increment_day t1 b)
    = tm_increment_day t (a + b) /\
  (t1 <- tm_decrement_day t a ;; tm_decrement_day t1 b)
    = tm_decrement_day t (a + b).
Proof.
  intros Ha Hb. unfold tm_increment_day, tm_decrement_day,
    increment_day_loop, decrement_day_loop.
  destruct (Z.ltb_spec a 0), (Z.ltb_spec b 0), (Z.ltb_spec (a + b) 0);
    try lia.
  rewrite Z2Nat.inj_add, !while_countdown_app by lia. split; reflexivity.
Qed.

Lemma day_walkers_add_up_witness :
  (t1 <- tm_increment_day (civil 123 11 20 0 0 0) 30 ;;
   tm_increment_day t1 40) = tm_increment_day (civil 123 11 20 0 0 0) (30 + 40) /\
  (t1 <- tm_decrement_day (civil 123 11 20 0 0 0) 30 ;;
   tm_decrement_day t1 40) = tm_decrement_day (civil 123 11 20 0 0 0) (30 + 40).
Proof.
  exact (day_walkers_add_up (civil 123 11 20 0 0 0) 30 40
           ltac:(lia) ltac:(lia)).
Defined.

(** ** Days: the walkers' calendar and the validator's *)

Lemma walker_table_is_spec_table (t : tm) :
  month_in_range t ->
  walker_month_length t =
  spec_days_in_month (tm_mon t) (is_leap_year (tm_year t)).
Proof.
  destruct t as [s mi h d m y dst];
    unfold month_in_range, walker_month_length; simpl.
  intros Hm; split_month Hm; subst m; reflexivity.
Qed.

Lemma validated_is_walker_valid (t : tm) :
  validate_date t = true ->
  tm_year t <> 0 ->
  is_leap_year (tm_year t) = is_leap_year (tm_year t + 1900) ->
  month_in_range t /\ walker_valid t.
Proof.
  intros V Ny A. apply validate_date_valid in V.
  destruct V as (_ & Hm & Hd & _).
  split; [exact Hm|]. split; [|exact Ny].
  now rewrite (walker_table_is_spec_table t Hm), A.
Qed.

(** X13. The day walkers stay inside their own calendar: from a month
    in 0..11, a day between 1 and the month's length (February by the
    oracle on the year field) and a year field other than 0, they return
    such a record again, for every quantity of either sign whose negation
    is an [int] (every [int] but [INT_MIN]). *)
Theorem day_walkers_keep_their_calendar (t : tm) (n : Z) :
  month_in_range t -> walker_valid t -> negatable n ->
  (exists t', tm_increment_day t n = Some t' /\
              month_in_range t' /\ walker_valid t') /\
  (exists t', tm_decrement_day t n = Some t' /\
              month_in_range t' /\ walker_valid t').
Proof.
  intros Hm Hv _.
  assert (F : forall r, month_in_range r /\ walker_valid r ->
              exists r', increment_day_step r = Some r' /\
                         (month_in_range r' /\ walker_valid r')).
  { intros r Hr. destruct (increment_day_step_undo r Hr) as (r' & ? & ? & _).
    eauto. }
  assert (B : forall r, month_in_range r /\ walker_valid r ->
              exists r', decrement_day_step r = Some r' /\
                         (month_in_range r' /\ walker_valid r')).
  { intros r Hr. destruct (decrement_day_step_undo r Hr) as (r' & ? & ? & _).
    eauto. }
  unfold tm_increment_day, tm_decrement_day,
    increment_day_loop, decrement_day_loop.
  pose proof (while_countdown_invariant increment_day_step _ F) as IF.
  pose proof (while_countdown_invariant decrement_day_step _ B) as IB.
  split; destruct (n <? 0).
  - destruct (IB (Z.to_nat (- n)) t (conj Hm Hv)) as (t' & E & P1 & P2); eauto.
  - destruct (IF (Z.to_nat n) t (conj Hm Hv)) as (t' & E & P1 & P2); eauto.
  - destruct (IF (Z.to_nat (- n)) t (conj Hm Hv)) as (t' & E & P1 & P2); eauto.
  - destruct (IB (Z.to_nat n) t (conj Hm Hv)) as (t' & E & P1 & P2); eauto.
Qed.

Lemma day_walkers_keep_their_calendar_witness :
  (exists t', tm_increment_day (civil 100 1 28 0 0 0) (-1000) = Some t' /\
              month_in_range t' /\ walker_valid t') /\
  (exists t', tm_decrement_day (civil 100 1 28 0 0 0) (-1000) = Some t' /\
              month_in_range t' /\ walker_valid t').
Proof.
  apply (day_walkers_keep_their_calendar (civil 100 1 28 0 0 0) (-1000)).
  - unfold month_in_range; simpl; lia.
  - unfold walker_valid; vm_compute; repeat split; discriminate.
  - unfold negatable, INT_MIN, INT_MAX; lia.
Defined.

(** X14. For a record accepted by [validate_date] whose year field is
    not 0 and about whose year the walkers and the validator get the same
    oracle answer (every year field that is not a multiple of 100 is
    such), adding [n] days and taking [n] days away, in either order and
    for every [n] of either sign whose negation is an [int] (every [int]
    but [INT_MIN]), returns the record itself, which [tm_compare] reports
    equal. *)
Theorem days_there_and_back (d : tm) (n : Z) :
  validate_date d = true ->
  tm_year d <> 0 ->
  is_leap_year (tm_year d) = is_leap_year (tm_year d + 1900) ->
  negatable n ->
  (exists t back,
     tm_increment_day d n = Some t /\ tm_decrement_day t n = Some back /\
     back = d /\ tm_compare back d = 0) /\
  (exists t back,
     tm_decrement_day d n = Some t /\ tm_increment_day t n = Some back /\
     back = d /\ tm_compare back d = 0).
Proof.
  intros V Ny A _.
  destruct (validated_is_walker_valid d V Ny A) as [Hm Hv].
  destruct (day_round_trip d n Hm Hv) as [F B].
  split.
  - destruct (tm_increment_day d n) as [t|]; simpl in F; [|discriminate].
    exists t, d. auto using tm_compare_same.
  - destruct (tm_decrement_day d n) as [t|]; simpl in B; [|discriminate].
    exists t, d. auto using tm_compare_same.
Qed.

Lemma days_there_and_back_witness :
  (exists t back,
     tm_increment_day (civil 124 1 29 12 0 0) (-366) = Some t /\
     tm_decrement_day t (-366) = Some back /\
     back = civil 124 1 29 12 0 0 /\
     tm_compare back (civil 124 1 29 12 0 0) = 0) /\
  (exists t back,
     tm_decrement_day (civil 124 1 29 12 0 0) (-366) = Some t /\
     tm_increment_day t (-366) = Some back /\
     back = civil 124 1 29 12 0 0 /\
     tm_compare back (civil 124 1 29 12 0 0) = 0).
Proof.
  apply (days_there_and_back (civil 124 1 29 12 0 0) (-366)).
  - reflexivity.
  - simpl; lia.
  - reflexivity.
  - unfold negatable, INT_MIN, INT_MAX; lia.
Defined.

(** X15. One day added to a record accepted by [validate_date] gives a
    record accepted by [validate_date], provided the walkers and the
    validator get the same oracle answer about its year and the year
    field is not -1901 (whose successor is the validator's unset year
    -1900); likewise one day taken away, provided the year field is not
    -1899. *)
Theorem validated_day_step (t : tm) :
  validate_date t = true ->
  is_leap_year (tm_year t) = is_leap_year (tm_year t + 1900) ->
  (tm_year t <> -1901 ->
   exists t', tm_increment_day t 1 = Some t' /\ validate_date t' = true) /\
  (tm_year t <> -1899 ->
   exists t', tm_decrement_day t 1 = Some t' /\ validate_date t' = true).
Proof.
  intros V A. apply validate_date_valid in V.
  rewrite increment_day_once, decrement_day_once.
  destruct t as [s mi h d m y dst].
  unfold valid_civil in V; simpl in V, A.
  destruct V as (Hy & Hm & Hd & Hh & Hmi & Hs).
  rewrite <- A in Hd.
  unfold increment_day_step, decrement_day_step; simpl.
  split; intros Ny;
    split_month Hm; subst m; cbn in *;
    try destruct (is_leap_year y) eqn:L; cbn in *;
    decide_tests; cbn;
    eexists; (split; [reflexivity|]);
    apply validate_date_true; unfold valid_civil; cbn;
    rewrite <- ?A; cbn; lia.
Qed.

Lemma validated_day_step_witness :
  (exists t', tm_increment_day (civil 124 1 28 0 0 0) 1 = Some t' /\
              validate_date t' = true) /\
  (exists t', tm_decrement_day (civil 124 2 1 0 0 0) 1 = Some t' /\
              validate_date t' = true).
Proof.
  split.
  - apply (proj1 (validated_day_step (civil 124 1 28 0 0 0)
                    eq_refl eq_refl)).
    simpl; lia.
  - apply (proj2 (validated_day_step (civil 124 2 1 0 0 0)
                    eq_refl eq_refl)).
    simpl; lia.
Defined.

(** ** Hours, minutes and seconds on the flat count *)

Lemma option_map_twice {A B C : Type} (f : B -> C) (g : A -> B) (x : option A) :
  option_map f (option_map g x) = option_map (fun a => f (g a)) x.
Proof. now destruct x. Qed.

Lemma option_map_same {A B : Type} (f g : A -> B) (x : option A) :
  (forall a, f a = g a) -> option_map f x = option_map g x.
Proof. intros H; destruct x; simpl; [now rewrite H|reflexivity]. Qed.

(** X16. For an hour in 0..23 and a quantity [n >= 0],
    [tm_increment_hour] hands [(hour + n) / 24] days to
    [tm_increment_day] and leaves the minute, second and DST fields
    alone; the hour field it leaves is [(hour + n) mod 24] when
    [hour + n mod 24] stays below 24, and twice that remainder when it
    does not: the field is the flat-count remainder exactly when there
    is no such wrap or the remainder is 0. *)
Theorem tm_increment_hour_exact (t : tm) (n : Z) :
  0 <= tm_hour t <= 23 -> 0 <= n ->
  tm_increment_hour t n =
  option_map (fun d => set_hour d (hour_left (tm_hour t) n))
             (tm_increment_day t ((tm_hour t + n) / 24)) /\
  (hour_left (tm_hour t) n = (tm_hour t + n) mod 24 <->
   tm_hour t + n mod 24 < 24 \/ (tm_hour t + n) mod 24 = 0).
Proof.
  intros Hh Hn. split; [now apply tm_increment_hour_carry|].
  unfold hour_left.
  destruct (Z.ltb_spec (tm_hour t + n mod 24) 24); split; intros; lia.
Qed.

Lemma tm_increment_hour_exact_witness :
  tm_increment_hour (civil 124 1 28 20 15 30) 30 =
  option_map (fun d => set_hour d (hour_left 20 30))
             (tm_increment_day (civil 124 1 28 20 15 30) ((20 + 30) / 24)) /\
  (hour_left 20 30 = (20 + 30) mod 24 <->
   20 + 30 mod 24 < 24 \/ (20 + 30) mod 24 = 0).
Proof.
  apply (tm_increment_hour_exact (civil 124 1 28 20 15 30) 30);
    simpl; lia.
Defined.

Lemma increment_minute_flat (t : tm) (n : Z) :
  0 <= tm_hour t <= 23 -> 0 <= tm_min t <= 59 -> 0 <= n ->
  tm_increment_minute t n =
  option_map
    (fun d => set_min
                (set_hour d (hour_left (tm_hour t) ((tm_min t + n) / 60)))
                ((tm_min t + n) mod 60))
    (tm_increment_day t ((tm_hour t + (tm_min t + n) / 60) / 24)).
Proof.
  intros Hh Hm Hn.
  rewrite tm_increment_minute_carry by lia.
  rewrite tm_increment_hour_carry by (try assumption; carry_arith).
  apply option_map_twice.
Qed.

(** X17. For an hour in 0..23, a minute in 0..59 and a quantity
    [n >= 0], [tm_increment_minute] leaves the minute field at
    [(minute + n) mod 60], carries [(minute + n) / 60] hours into the
    hour field the way [tm_increment_hour] does, and hands the whole days
    [(hour + (minute + n) / 60) / 24] to [tm_increment_day]. *)
Theorem tm_increment_minute_exact (t : tm) (n : Z) :
  0 <= tm_hour t <= 23 -> 0 <= tm_min t <= 59 -> 0 <= n ->
  tm_increment_minute t n =
  option_map
    (fun d => set_min
                (set_hour d (hour_left (tm_hour t) ((tm_min t + n) / 60)))
                ((tm_min t + n) mod 60))
    (tm_increment_day t ((tm_hour t + (tm_min t + n) / 60) / 24)).
Proof. exact (increment_minute_flat t n). Qed.

Lemma tm_increment_minute_exact_witness :
  tm_increment_minute (civil 124 1 28 20 15 30) 1000 =
  option_map
    (fun d => set_min (set_hour d (hour_left 20 ((15 + 1000) / 60)))
                ((15 + 1000) mod 60))
    (tm_increment_day (civil 124 1 28 20 15 30)
       ((20 + (15 + 1000) / 60) / 24)).
Proof.
  apply (tm_increment_minute_exact (civil 124 1 28 20 15 30) 1000);
    simpl; lia.
Defined.

Lemma increment_second_flat (t : tm) (n : Z) :
  valid_clock t -> 0 <= n ->
  tm_increment_second t n =
  option_map
    (fun d => set_sec
                (set_min
                   (set_hour d
                      (hour_left (tm_hour t)
                         ((clock_secs t + n) / 3600 - tm_hour t)))
                   ((clock_secs t + n) / 60 mod 60))
                ((clock_secs t + n) mod 60))
    (tm_increment_day t ((clock_secs t + n) / 86400)).
Proof.
  intros (Hh & Hm & Hs) Hn.
  rewrite tm_increment_second_carry by lia.
  rewrite increment_minute_flat by (try assumption; carry_arith).
  rewrite option_map_twice. unfold clock_secs.
  replace ((tm_hour t + (tm_min t + (tm_sec t + n) / 60) / 60) / 24)
    with ((tm_hour t * 3600 + tm_min t * 60 + tm_sec t + n) / 86400)
    by carry_arith.
  apply option_map_same; intros d.
  replace ((tm_min t + (tm_sec t + n) / 60) / 60)
    with ((tm_hour t * 3600 + tm_min t * 60 + tm_sec t + n) / 3600 - tm_hour t)
    by carry_arith.
  replace ((tm_min t + (tm_sec t + n) / 60) mod 60)
    with ((tm_hour t * 3600 + tm_min t * 60 + tm_sec t + n) / 60 mod 60)
    by carry_arith.
  replace ((tm_sec t + n) mod 60)
    with ((tm_hour t * 3600 + tm_min t * 60 + tm_sec t + n) mod 60)
    by carry_arith.
  reflexivity.
Qed.

(** X18. For clock fields in range and a quantity [n >= 0], with [c] the
    record's seconds since midnight: [tm_increment_second] leaves second
    [(c + n) mod 60] and minute [(c + n) / 60 mod 60], hands
    [(c + n) / 86400] days to [tm_increment_day], and carries
    [(c + n) / 3600 - hour] hours into the hour field the way
    [tm_increment_hour] does. *)
Theorem tm_increment_second_exact (t : tm) (n : Z) :
  valid_clock t -> 0 <= n ->
  tm_increment_second t n =
  option_map
    (fun d => set_sec
                (set_min
                   (set_hour d
                      (hour_left (tm_hour t)
                         ((clock_secs t + n) / 3600 - tm_hour t)))
                   ((clock_secs t + n) / 60 mod 60))
                ((clock_secs t + n) mod 60))
    (tm_increment_day t ((clock_secs t + n) / 86400)).
Proof. exact (increment_second_flat t n). Qed.

Lemma tm_increment_second_exact_witness :
  tm_increment_second (civil 124 1 28 20 15 30) 100000 =
  option_map
    (fun d => set_sec
                (set_min
                   (set_hour d
                      (hour_left 20
                         ((clock_secs (civil 124 1 28 20 15 30) + 100000)
                            / 3600 - 20)))
                   ((clock_secs (civil 124 1 28 20 15 30) + 100000)
                      / 60 mod 60))
                ((clock_secs (civil 124 1 28 20 15 30) + 100000) mod 60))
    (tm_increment_day (civil 124 1 28 20 15 30)
       ((clock_secs (civil 124 1 28 20 15 30) + 100000) / 86400)).
Proof.
  apply (tm_increment_second_exact (civil 124 1 28 20 15 30) 100000).
  - unfold valid_clock; simpl; lia.
  - lia.
Defined.

(** X19. While the day does not change, [tm_increment_second] is exact:
    for clock fields in range and [n >= 0] with [c + n < 86400], where
    [c] is the record's seconds since midnight, it returns the same
    record with hour [(c + n) / 3600], minute [(c + n) / 60 mod 60] and
    second [(c + n) mod 60], whatever the date fields hold. *)
Theorem tm_increment_second_within_the_day (t : tm) (n : Z) :
  valid_clock t -> 0 <= n -> clock_secs t + n < 86400 ->
  tm_increment_second t n =
  Some (set_sec
          (set_min (set_hour t ((clock_secs t + n) / 3600))
             ((clock_secs t + n) / 60 mod 60))
          ((clock_secs t + n) mod 60)).
Proof.
  intros V Hn Hc. rewrite increment_second_flat by assumption.
  pose proof (valid_clock_secs t V) as R.
  destruct V as (Hh & Hm & Hs).
  replace ((clock_secs t + n) / 86400) with 0 by carry_arith.
  rewrite tm_increment_day_zero. cbn [option_map].
  do 4 f_equal. unfold hour_left, clock_secs in *.
  destruct (Z.ltb_spec
              (tm_hour t +
               ((tm_hour t * 3600 + tm_min t * 60 + tm_sec t + n) / 3600
                - tm_hour t) mod 24) 24); carry_arith.
Qed.

Lemma tm_increment_second_within_the_day_witness :
  tm_increment_second (civil 124 12 35 20 15 30) 9000 =
  Some (civil 124 12 35 22 45 30).
Proof.
  apply (tm_increment_second_within_the_day (civil 124 12 35 20 15 30) 9000).
  - unfold valid_clock; simpl; lia.
  - lia.
  - vm_compute; reflexivity.
Defined.

(** ** Taking time away *)

(** X20. For an hour in 0..23 and a quantity [n >= 0],
    [tm_decrement_hour] leaves the hour field at [(hour - n) mod 24],
    which is in 0..23, and takes [-((hour - n) / 24)] days with
    [tm_decrement_day]; minute, second and DST fields stay. *)
Theorem tm_decrement_hour_exact (t : tm) (n : Z) :
  0 <= tm_hour t <= 23 -> 0 <= n ->
  tm_decrement_hour t n =
  option_map (fun d => set_hour d ((tm_hour t - n) mod 24))
             (tm_decrement_day t (- ((tm_hour t - n) / 24))) /\
  0 <= (tm_hour t - n) mod 24 <= 23 /\ 0 <= - ((tm_hour t - n) / 24).
Proof.
  intros Hh Hn. split; [now apply tm_decrement_hour_borrow|carry_arith].
Qed.

Lemma tm_decrement_hour_exact_witness :
  tm_decrement_hour (civil 124 2 1 3 15 30) 30 =
  option_map (fun d => set_hour d ((3 - 30) mod 24))
             (tm_decrement_day (civil 124 2 1 3 15 30) (- ((3 - 30) / 24))) /\
  0 <= (3 - 30) mod 24 <= 23 /\ 0 <= - ((3 - 30) / 24).
Proof.
  apply (tm_decrement_hour_exact (civil 124 2 1 3 15 30) 30); simpl; lia.
Defined.

Lemma decrement_minute_flat (t : tm) (n : Z) :
  0 <= tm_hour t <= 23 -> 0 <= tm_min t <= 59 -> 0 <= n ->
  tm_decrement_minute t n =
  option_map
    (fun d => set_min
                (set_hour d ((tm_hour t * 60 + tm_min t - n) / 60 mod 24))
                ((tm_hour t * 60 + tm_min t - n) mod 60))
    (tm_decrement_day t (- ((tm_hour t * 60 + tm_min t - n) / 1440))).
Proof.
  intros Hh Hm Hn.
  rewrite tm_decrement_minute_borrow by lia.
  rewrite tm_decrement_hour_borrow by (try assumption; carry_arith).
  rewrite option_map_twice.
  replace (- ((tm_hour t - - ((tm_min t - n) / 60)) / 24))
    with (- ((tm_hour t * 60 + tm_min t - n) / 1440)) by carry_arith.
  apply option_map_same; intros d.
  replace ((tm_hour t - - ((tm_min t - n) / 60)) mod 24)
    with ((tm_hour t * 60 + tm_min t - n) / 60 mod 24) by carry_arith.
  replace ((tm_min t - n) mod 60)
    with ((tm_hour t * 60 + tm_min t - n) mod 60) by carry_arith.
  reflexivity.
Qed.

(** X21. For an hour in 0..23, a minute in 0..59 and a quantity
    [n >= 0], with [c = hour * 60 + minute]: [tm_decrement_minute] leaves
    minute [(c - n) mod 60] and hour [(c - n) / 60 mod 24] and takes
    [-((c - n) / 1440)] days with [tm_decrement_day]: the flat count of
    minutes, without the doubling of the incrementer. *)
Theorem tm_decrement_minute_exact (t : tm) (n : Z) :
  0 <= tm_hour t <= 23 -> 0 <= tm_min t <= 59 -> 0 <= n ->
  tm_decrement_minute t n =
  option_map
    (fun d => set_min
                (set_hour d ((tm_hour t * 60 + tm_min t - n) / 60 mod 24))
                ((tm_hour t * 60 + tm_min t - n) mod 60))
    (tm_decrement_day t (- ((tm_hour t * 60 + tm_min t - n) / 1440))).
Proof. exact (decrement_minute_flat t n). Qed.

Lemma tm_decrement_minute_exact_witness :
  tm_decrement_minute (civil 124 2 1 3 15 30) 2000 =
  option_map
    (fun d => set_min (set_hour d ((3 * 60 + 15 - 2000) / 60 mod 24))
                ((3 * 60 + 15 - 2000) mod 60))
    (tm_decrement_day (civil 124 2 1 3 15 30)
       (- ((3 * 60 + 15 - 2000) / 1440))).
Proof.
  apply (tm_decrement_minute_exact (civil 124 2 1 3 15 30) 2000);
    simpl; lia.
Defined.

Lemma decrement_second_flat (t : tm) (n : Z) :
  valid_clock t -> 0 <= n ->
  tm_decrement_second t n =
  option_map
    (fun d => set_sec
                (set_min
                   (set_hour d ((clock_secs t - n) / 3600 mod 24))
                   ((clock_secs t - n) / 60 mod 60))
                ((clock_secs t - n) mod 60))
    (tm_decrement_day t (- ((clock_secs t - n) / 86400))).
Proof.
  intros (Hh & Hm & Hs) Hn.
  rewrite tm_decrement_second_borrow by lia.
  rewrite decrement_minute_flat by (try assumption; carry_arith).
  rewrite option_map_twice. unfold clock_secs.
  replace (- ((tm_hour t * 60 + tm_min t - - ((tm_sec t - n) / 60)) / 1440))
    with (- ((tm_hour t * 3600 + tm_min t * 60 + tm_sec t - n) / 86400))
    by carry_arith.
  apply option_map_same; intros d.
  replace ((tm_hour t * 60 + tm_min t - - ((tm_sec t - n) / 60)) / 60 mod 24)
    with ((tm_hour t * 3600 + tm_min t * 60 + tm_sec t - n) / 3600 mod 24)
    by carry_arith.
  replace ((tm_hour t * 60 + tm_min t - - ((tm_sec t - n) / 60)) mod 60)
    with ((tm_hour t * 3600 + tm_min t * 60 + tm_sec t - n) / 60 mod 60)
    by carry_arith.
  replace ((tm_sec t - n) mod 60)
    with ((tm_hour t * 3600 + tm_min t * 60 + tm_sec t - n) mod 60)
    by carry_arith.
  reflexivity.
Qed.

(** X22. For clock fields in range and a quantity [n >= 0], with [c]
    the record's seconds since midnight: [tm_decrement_second] leaves
    second [(c - n) mod 60], minute [(c - n) / 60 mod 60] and hour
    [(c - n) / 3600 mod 24], and takes [-((c - n) / 86400)] days with
    [tm_decrement_day]: the flat count of seconds. *)
Theorem tm_decrement_second_exact (t : tm) (n : Z) :
  valid_clock t -> 0 <= n ->
  tm_decrement_second t n =
  option_map
    (fun d => set_sec
                (set_min
                   (set_hour d ((clock_secs t - n) / 3600 mod 24))
                   ((clock_secs t - n) / 60 mod 60))
                ((clock_secs t - n) mod 60))
    (tm_decrement_day t (- ((clock_secs t - n) / 86400))).
Proof. exact (decrement_second_flat t n). Qed.

Lemma tm_decrement_second_exact_witness :
  tm_decrement_second (civil 124 2 1 3 15 30) 100000 =
  option_map
    (fun d => set_sec
                (set_min
                   (set_hour d
                      ((clock_secs (civil 124 2 1 3 15 30) - 100000)
                         / 3600 mod 24))
                   ((clock_secs (civil 124 2 1 3 15 30) - 100000)
                      / 60 mod 60))
                ((clock_secs (civil 124 2 1 3 15 30) - 100000) mod 60))
    (tm_decrement_day (civil 124 2 1 3 15 30)
       (- ((clock_secs (civil 124 2 1 3 15 30) - 100000) / 86400))).
Proof.
  apply (tm_decrement_second_exact (civil 124 2 1 3 15 30) 100000).
  - unfold valid_clock; simpl; lia.
  - lia.
Defined.

Lemma tm_decrement_day_keeps (t : tm) (n : Z) :
  month_in_range t -> walker_valid t -> 0 <= n ->
  exists d, tm_decrement_day t n = Some d /\
            month_in_range d /\ walker_valid d /\ clock_of d = clock_of t.
Proof.
  intros Hm Hv Hn. unfold tm_decrement_day, decrement_day_loop.
  destruct (Z.ltb_spec n 0); [lia|].
  assert (B : forall r, month_in_range r /\ walker_valid r ->
              exists r', decrement_day_step r = Some r' /\
                         (month_in_range r' /\ walker_valid r')).
  { intros r Hr. destruct (decrement_day_step_undo r Hr) as (r' & ? & ? & _).
    eauto. }
  destruct (while_countdown_invariant decrement_day_step _ B (Z.to_nat n) t
              (conj Hm Hv)) as (d & E & P1 & P2).
  exists d. split; [exact E|]. split; [exact P1|]. split; [exact P2|].
  apply (while_countdown_frame decrement_day_step clock_of)
    with (n := Z.to_nat n); [|exact E].
  exact decrement_day_step_clock.
Qed.

(** X23. The decrementers keep a well-formed record well-formed: from a
    month in 0..11, a day and year of the walkers' calendar and clock
    fields in range, [tm_decrement_hour], [tm_decrement_minute] and
    [tm_decrement_second] return, for every quantity [n >= 0], a record
    of the same kind with the DST field unchanged. *)
Theorem decrementers_keep_records_well_formed (t : tm) (n : Z) :
  month_in_range t -> walker_valid t -> valid_clock t -> 0 <= n ->
  (exists t', tm_decrement_hour t n = Some t' /\ valid_clock t' /\
     month_in_range t' /\ walker_valid t' /\ tm_isdst t' = tm_isdst t) /\
  (exists t', tm_decrement_minute t n = Some t' /\ valid_clock t' /\
     month_in_range t' /\ walker_valid t' /\ tm_isdst t' = tm_isdst t) /\
  (exists t', tm_decrement_second t n = Some t' /\ valid_clock t' /\
     month_in_range t' /\ walker_valid t' /\ tm_isdst t' = tm_isdst t).
Proof.
  intros Hm Hv V Hn. pose proof V as (Hh & Hmi & Hs).
  split; [|split].
  - rewrite tm_decrement_hour_borrow by assumption.
    destruct (tm_decrement_day_keeps t (- ((tm_hour t - n) / 24)) Hm Hv
                ltac:(carry_arith)) as (d & -> & Pm & Pv & Pd).
    eexists; split; [reflexivity|].
    destruct d, t; unfold valid_clock, month_in_range, walker_valid,
      walker_month_length, clock_of in *; cbn in *.
    injection Pd as -> -> -> ->.
    repeat split; try tauto; try carry_arith.
  - rewrite decrement_minute_flat by assumption.
    destruct (tm_decrement_day_keeps t
                (- ((tm_hour t * 60 + tm_min t - n) / 1440)) Hm Hv
                ltac:(carry_arith)) as (d & -> & Pm & Pv & Pd).
    eexists; split; [reflexivity|].
    destruct d, t; unfold valid_clock, month_in_range, walker_valid,
      walker_month_length, clock_of in *; cbn in *.
    injection Pd as -> -> -> ->.
    repeat split; try tauto; try carry_arith.
  - rewrite decrement_second_flat by assumption.
    pose proof (valid_clock_secs t V).
    destruct (tm_decrement_day_keeps t
                (- ((clock_secs t - n) / 86400)) Hm Hv
                ltac:(carry_arith)) as (d & -> & Pm & Pv & Pd).
    eexists; split; [reflexivity|].
    destruct d as [s' mi' h' d' m' y' dst'];
      unfold valid_clock, month_in_range, walker_valid,
      walker_month_length, clock_of in *;
      cbn [option_map set_sec set_min set_hour
        tm_sec tm_min tm_hour tm_mday tm_mon tm_year tm_isdst] in *.
    injection Pd as _ _ _ ->.
    repeat split; try tauto; try carry_arith.
Qed.

Lemma decrementers_keep_records_well_formed_witness :
  (exists t', tm_decrement_hour (civil 124 2 1 3 15 30) 100 = Some t' /\
     valid_clock t' /\ month_in_range t' /\ walker_valid t' /\
     tm_isdst t' = 0) /\
  (exists t', tm_decrement_minute (civil 124 2 1 3 15 30) 100 = Some t' /\
     valid_clock t' /\ month_in_range t' /\ walker_valid t' /\
     tm_isdst t' = 0) /\
  (exists t', tm_decrement_second (civil 124 2 1 3 15 30) 100 = Some t' /\
     valid_clock t' /\ month_in_range t' /\ walker_valid t' /\
     tm_isdst t' = 0).
Proof.
  apply (decrementers_keep_records_well_formed (civil 124 2 1 3 15 30) 100).
  - unfold month_in_range; simpl; lia.
  - unfold walker_valid; vm_compute; repeat split; discriminate.
  - unfold valid_clock; simpl; lia.
  - lia.
Defined.

(** ** Quantities of either sign *)

(** X24. For every quantity other than 0, incrementing by the negated
    quantity is decrementing by the quantity and the other way round,
    for days, hours, minutes and seconds alike, whatever the record. *)
Theorem negated_quantity_goes_the_other_way (t : tm) (q : Z) :
  q <> 0 ->
  tm_increment_day t (- q) = tm_decrement_day t q /\
  tm_decrement_day t (- q) = tm_increment_day t q /\
  tm_increment_hour t (- q) = tm_decrement_hour t q /\
  tm_decrement_hour t (- q) = tm_increment_hour t q /\
  tm_increment_minute t (- q) = tm_decrement_minute t q /\
  tm_decrement_minute t (- q) = tm_increment_minute t q /\
  tm_increment_second t (- q) = tm_decrement_second t q /\
  tm_decrement_second t (- q) = tm_increment_second t q.
Proof.
  intros H.
  unfold tm_increment_day, tm_decrement_day, tm_increment_hour,
    tm_decrement_hour, tm_increment_minute, tm_decrement_minute,
    tm_increment_second, tm_decrement_second.
  destruct (Z.ltb_spec q 0), (Z.ltb_spec (- q) 0); try lia;
    rewrite ?Z.opp_involutive; repeat split.
Qed.

Lemma negated_quantity_goes_the_other_way_witness :
  tm_increment_day (civil 124 2 1 3 15 30) (- 45)
    = tm_decrement_day (civil 124 2 1 3 15 30) 45 /\
  tm_decrement_day (civil 124 2 1 3 15 30) (- 45)
    = tm_increment_day (civil 124 2 1 3 15 30) 45 /\
  tm_increment_hour (civil 124 2 1 3 15 30) (- 45)
    = tm_decrement_hour (civil 124 2 1 3 15 30) 45 /\
  tm_decrement_hour (civil 124 2 1 3 15 30) (- 45)
    = tm_increment_hour (civil 124 2 1 3 15 30) 45 /\
  tm_increment_minute (civil 124 2 1 3 15 30) (- 45)
    = tm_decrement_minute (civil 124 2 1 3 15 30) 45 /\
  tm_decrement_minute (civil 124 2 1 3 15 30) (- 45)
    = tm_increment_minute (civil 124 2 1 3 15 30) 45 /\
  tm_increment_second (civil 124 2 1 3 15 30) (- 45)
    = tm_decrement_second (civil 124 2 1 3 15 30) 45 /\
  tm_decrement_second (civil 124 2 1 3 15 30) (- 45)
    = tm_increment_second (civil 124 2 1 3 15 30) 45.
Proof.
  apply (negated_quantity_goes_the_other_way (civil 124 2 1 3 15 30) 45).
  lia.
Defined.
